(** * Plan validation and atomic transaction engine

    A shallow embedding of the backend services of the AI-assisted IDE:
    the path policy guard and filesystem adapter ([fs-adapter.ts]), the
    plan validator ([planner.ts]), the transaction engine ([txn.ts]), the
    plan routes ([ai.routes.ts]), the file routes ([files.routes.ts]) and
    the event notifier ([events.ts]), followed by the properties of these
    services.

    Modelling conventions.
    - JavaScript strings are [string]; optional fields are [option]; a
      string "is given" in the sense of the source's [!x] tests when it is
      present and non-empty ([Js.truthy]).
    - [async]/[await] is sequential here (one request at a time), so a
      promise is the value it resolves to, or the message of the [Error]
      it rejects with.
    - The workspace is a finite map from normalized relative paths to the
      contents of regular files. Directories are not in it: parent
      directories are created on demand as [fs.mkdir(..., {recursive:
      true})] does, and a path that names a directory, ends in a
      separator or lies under a regular file is not told apart from a
      path that names nothing. The only I/O failures are a forbidden path
      and a missing file. Accordingly, what is proved of a write, a
      rename or a delete that succeeds is stated for files that can be
      read.
    - The call stack is a parameter: [stackDepth] is the number of nested
      calls of the cycle detection it has room for. Exhausting it is the
      [RangeError] that [validatePlan] catches.
    - Objects that the source mutates in place and shares between the plan
      store and the transaction engine ([FileChange]) live in a heap and
      are passed by location.
    - Records keep the fields the services read; descriptions, summaries,
      timestamps and metadata are left out. Line numbers are integers.
    - The logger is not modelled: it has no effect on any result. *)

From Stdlib Require Import Ascii String ZArith List Lia Bool.
From stdpp Require Import gmap strings list.
#[local] Set Warnings "-clear-no-such-hyp".
Local Open Scope string_scope.
Local Open Scope list_scope.

(* ================================================================== *)
(** * Part I: the program                                               *)
(* ================================================================== *)

(** ** JavaScript string and array primitives *)
Module Js.

(** [s.startsWith(p)] *)
Fixpoint startsWith (s p : string) {struct p} : bool :=
  match p with
  | EmptyString => true
  | String a p' =>
      match s with
      | EmptyString => false
      | String b s' => Ascii.eqb a b && startsWith s' p'
      end
  end.

(** [s.includes(sub)] *)
Fixpoint includes (s sub : string) : bool :=
  startsWith s sub ||
  match s with
  | EmptyString => false
  | String _ s' => includes s' sub
  end.

(** [s.split(sep)] for a one-character separator; the empty string
    splits into one empty piece. *)
Fixpoint split (sep : ascii) (s : string) : list string :=
  match s with
  | EmptyString => [EmptyString]
  | String c s' =>
      if Ascii.eqb c sep then EmptyString :: split sep s'
      else match split sep s' with
           | seg :: rest => String c seg :: rest
           | [] => [String c EmptyString]
           end
  end.

(** [l.join(sep)] *)
Fixpoint join (sep : string) (l : list string) : string :=
  match l with
  | [] => EmptyString
  | [x] => x
  | x :: rest => x +:+ sep +:+ join sep rest
  end.

(** Truthiness of an optional string: [undefined] and the empty string
    are falsy. *)
Definition truthy (o : option string) : bool :=
  match o with
  | Some s => negb (String.eqb s EmptyString)
  | None => false
  end.

(** [x || ''] on an optional string. *)
Definition orEmpty (o : option string) : string :=
  match o with
  | Some s => s
  | None => EmptyString
  end.

(** [l.splice(start, 0, x)]: a negative [start] counts from the end and
    is clamped at the front, a [start] past the end is clamped to the end. *)
Definition spliceInsert {A : Type} (l : list A) (start : Z) (x : A) : list A :=
  let len := Z.of_nat (length l) in
  let actual := if (start <? 0)%Z then Z.max (len + start) 0 else Z.min start len in
  firstn (Z.to_nat actual) l ++ x :: skipn (Z.to_nat actual) l.

End Js.

(** ** [path.normalize] (Node.js, POSIX flavour)

    The library function the guard calls: empty and [.] segments are
    dropped, a [..] segment removes the segment before it (or is kept in
    front of a relative path, dropped at the root of an absolute one),
    runs of separators collapse, a trailing separator is kept, and the
    empty result is written [.]. *)
Module Path.

Definition sep : ascii := "/"%char.

Definition endsWithSep (s : string) : bool :=
  match last (Js.split sep s) with
  | Some seg => String.eqb seg EmptyString
  | None => false
  end.

(** The segment loop of [normalizeString]; [res] is the result so far,
    last segment first. *)
Fixpoint normalizeSegments (allowAboveRoot : bool) (segs res : list string) : list string :=
  match segs with
  | [] => rev res
  | seg :: segs' =>
      if String.eqb seg EmptyString || String.eqb seg "." then
        normalizeSegments allowAboveRoot segs' res
      else if String.eqb seg ".." then
        match res with
        | top :: res' =>
            if String.eqb top ".." then
              normalizeSegments allowAboveRoot segs'
                (if allowAboveRoot then ".." :: res else res)
            else normalizeSegments allowAboveRoot segs' res'
        | [] =>
            normalizeSegments allowAboveRoot segs'
              (if allowAboveRoot then [".."] else [])
        end
      else normalizeSegments allowAboveRoot segs' (seg :: res)
  end.

(** The segments the loop keeps when no [..] occurs. *)
Definition keptSegment (seg : string) : bool :=
  negb (String.eqb seg EmptyString || String.eqb seg ".").

Definition isAbsolute (p : string) : bool := Js.startsWith p "/".

Definition normalize (p : string) : string :=
  if String.eqb p EmptyString then "."
  else
    let isAbs := isAbsolute p in
    let trailingSeparator := endsWithSep p in
    let res := Js.join "/" (normalizeSegments (negb isAbs) (Js.split sep p) []) in
    if String.eqb res EmptyString then
      if isAbs then "/" else if trailingSeparator then "./" else "."
    else
      (if isAbs then "/" else EmptyString) +:+ res +:+
      (if trailingSeparator then "/" else EmptyString).

(** A [..] path segment. *)
Definition hasTraversalSegment (p : string) : bool :=
  existsb (String.eqb "..") (Js.split sep p).

End Path.

(** ** The shared contracts ([contracts.ts]) *)
Module Contracts.

Inductive Op := OpCreate | OpUpdate | OpDelete | OpRename.
Inductive ApplyMethod := Diff | ReplaceFile | InsertAtLine.

Record FileChange := {
  file : string;
  op : Op;
  applyMethod : ApplyMethod;
  diff : option string;
  content : option string;
  newPath : option string;
  insertAtLine : option Z;
  backup : bool
}.

(** Of a step the validator reads [id] and [dependencies] only. *)
Record PlanStep := {
  id : string;
  dependencies : list string
}.

Record ApplyOptions := {
  createBackups : bool;
  formatOnSave : bool;
  dryRun : bool
}.

(** The [{ valid, error? }] objects both validators build. *)
Record Validation := {
  valid : bool;
  error : option string
}.

Definition accept : Validation := {| valid := true; error := None |}.
Definition reject (message : string) : Validation :=
  {| valid := false; error := Some message |}.

(** A location of the heap of [FileChange] objects. *)
Definition loc := nat.

(** A promise's settlement, or the outcome of a call that may throw. *)
Inductive result (A : Type) :=
  | Ok (a : A)
  | Err (message : string).
Arguments Ok {A} a.
Arguments Err {A} message.

End Contracts.
Import Contracts.

(** ** The filesystem adapter ([fs-adapter.ts]) *)
Module FSAdapter.

(** The allow-list the constructor installs. *)
Definition defaultAllowedPaths : list string :=
  [ "src/"; "public/"; "components/"; "pages/"; "styles/"; "utils/";
    "hooks/"; "services/"; "types/"; "tests/"; "__tests__/"; "docs/";
    "README.md"; "package.json"; "tsconfig.json"; "vite.config.ts";
    "tailwind.config.js"; ".env.example" ].

Section Adapter.

Variable allowedPaths : list string.

Definition isPathAllowed (filePath : string) : bool :=
  let normalizedPath := Path.normalize filePath in
  if Js.includes normalizedPath ".." || Js.startsWith normalizedPath "/" then false
  else
    existsb (fun allowedPath =>
               Js.startsWith normalizedPath allowedPath
               || String.eqb normalizedPath allowedPath)
            allowedPaths.

(** The file a permitted path denotes: [path.join(workspaceRoot, p)],
    which normalizes. *)
Definition fileKey (filePath : string) : string := Path.normalize filePath.

Definition exists_ (fs : gmap string string) (filePath : string) : bool :=
  isPathAllowed filePath && bool_decide (is_Some (fs !! fileKey filePath)).

Definition readFile (fs : gmap string string) (filePath : string) : result string :=
  if isPathAllowed filePath then
    match fs !! fileKey filePath with
    | Some c => Ok c
    | None => Err ("Failed to read file: " +:+ filePath)
    end
  else Err ("Failed to read file: " +:+ filePath).

(** The content goes to the sibling [<path>.tmp], which is then renamed
    over the target. *)
Definition writeFile (fs : gmap string string) (filePath content : string)
  : result (gmap string string) :=
  if isPathAllowed filePath then
    Ok (<[fileKey filePath := content]> (delete (fileKey filePath +:+ ".tmp") fs))
  else Err ("Failed to write file: " +:+ filePath).

Definition deleteFile (fs : gmap string string) (filePath : string)
  : result (gmap string string) :=
  if isPathAllowed filePath then
    match fs !! fileKey filePath with
    | Some _ => Ok (delete (fileKey filePath) fs)
    | None => Err ("Failed to delete file: " +:+ filePath)
    end
  else Err ("Failed to delete file: " +:+ filePath).

Definition renameFile (fs : gmap string string) (oldPath newPath : string)
  : result (gmap string string) :=
  let message := "Failed to rename file: " +:+ oldPath +:+ " -> " +:+ newPath in
  if isPathAllowed oldPath && isPathAllowed newPath then
    match fs !! fileKey oldPath with
    | Some c => Ok (<[fileKey newPath := c]> (delete (fileKey oldPath) fs))
    | None => Err message
    end
  else Err message.

End Adapter.

(** Of the metadata [getFileMetadata] builds, the path and the content
    fingerprint; the other fields are read from [fs.stat] and from the
    file extension. *)
Record FileMetadata := {
  metadataPath : string;
  metadataEtag : string
}.

Section Metadata.

Variable allowedPaths : list string.
Variable etag : string -> string.

Definition getFileMetadata (fs : gmap string string) (filePath : string)
  : result FileMetadata :=
  if isPathAllowed allowedPaths filePath then
    match fs !! fileKey filePath with
    | Some c => Ok {| metadataPath := filePath; metadataEtag := etag c |}
    | None => Err ("Failed to get metadata for: " +:+ filePath)
    end
  else Err ("Failed to get metadata for: " +:+ filePath).

End Metadata.

End FSAdapter.

(** ** The plan validator ([planner.ts]) *)
Module PlannerService.

(** [AIResponse]: the plan document; [steps] is [plan.steps], and
    [changes] holds references to the change objects. *)
Record AIResponse := {
  responseId : string;
  steps : list PlanStep;
  changes : list loc;
  warnings : list string
}.

Section Planner.

Variable allowedPaths : list string.

Definition validateFileChange (fs : gmap string string) (change : FileChange) : Validation :=
  if negb (FSAdapter.isPathAllowed allowedPaths (file change)) then
    reject "Path not allowed by security policy"
  else
    let present := FSAdapter.exists_ allowedPaths fs (file change) in
    let opError :=
      match op change with
      | OpCreate => if present then Some "File already exists" else None
      | OpUpdate => if negb present then Some "File does not exist" else None
      | OpDelete => if negb present then Some "File does not exist" else None
      | OpRename =>
          if negb present then Some "Source file does not exist"
          else if negb (Js.truthy (newPath change)) then
            Some "New path required for rename operation"
          else None
      end in
    match opError with
    | Some message => reject message
    | None =>
        match applyMethod change with
        | Diff =>
            if negb (Js.truthy (diff change)) then
              reject "Diff content required for diff apply method"
            else accept
        | ReplaceFile =>
            if negb (Js.truthy (content change)) then
              reject "Content required for replaceFile apply method"
            else accept
        | InsertAtLine =>
            if match insertAtLine change with None => true | Some _ => false end
               || negb (Js.truthy (content change)) then
              reject "Line number and content required for insertAtLine apply method"
            else accept
        end
    end.

End Planner.

(** [steps.find(s => s.id === stepId)] *)
Definition findStep (steps : list PlanStep) (stepId : string) : option PlanStep :=
  List.find (fun s => String.eqb (id s) stepId) steps.

(** The two sets the traversal mutates: [visited] and [recursionStack]. *)
Definition Marks : Type := gset string * gset string.

(** The [for (const depId of step.dependencies)] loop of [hasCycle];
    [recurse] is the recursive call. *)
Fixpoint depsLoop (recurse : string -> Marks -> option (bool * Marks))
    (deps : list string) (marks : Marks) : option (bool * Marks) :=
  match deps with
  | [] => Some (false, marks)
  | depId :: deps' =>
      match recurse depId marks with
      | Some (true, marks') => Some (true, marks')
      | Some (false, marks') => depsLoop recurse deps' marks'
      | None => None
      end
  end.

(** The closure [hasCycle]. Every call takes a frame of the call stack:
    [fuel] is the number of nested calls the stack still has room for (a
    call that has room runs its body, [find] included), and [None]
    stands for the [RangeError] the engine throws when a call finds
    none. *)
Fixpoint hasCycle (fuel : nat) (steps : list PlanStep) (stepId : string)
    (marks : Marks) : option (bool * Marks) :=
  match fuel with
  | O => None
  | S fuel' =>
      let '(visited, recursionStack) := marks in
      if decide (stepId ∈ recursionStack) then Some (true, marks)
      else if decide (stepId ∈ visited) then Some (false, marks)
      else
        let marks1 := (visited ∪ {[stepId]}, recursionStack ∪ {[stepId]}) in
        let deps :=
          match findStep steps stepId with
          | Some step => dependencies step
          | None => []
          end in
        match depsLoop (hasCycle fuel' steps) deps marks1 with
        | Some (true, marks') => Some (true, marks')
        | Some (false, (visited', recursionStack')) =>
            Some (false, (visited', recursionStack' ∖ {[stepId]}))
        | None => None
        end
  end.

(** The [for (const step of steps)] loop of [hasCircularDependencies]. *)
Fixpoint stepsLoop (fuel : nat) (steps todo : list PlanStep) (marks : Marks)
  : option bool :=
  match todo with
  | [] => Some false
  | step :: todo' =>
      match hasCycle fuel steps (id step) marks with
      | Some (true, _) => Some true
      | Some (false, marks') => stepsLoop fuel steps todo' marks'
      | None => None
      end
  end.

(** Every identifier the traversal can meet: step ids and dependency ids. *)
Definition nodes (steps : list PlanStep) : gset string :=
  list_to_set (map id steps ++ flat_map dependencies steps).

(** [stackDepth] is the number of nested calls of [hasCycle] the call
    stack has room for when [hasCircularDependencies] is entered; the
    result is [None] when the traversal throws. *)
Definition hasCircularDependencies (stackDepth : nat) (steps : list PlanStep)
  : option bool :=
  stepsLoop stackDepth steps steps (∅, ∅).

Definition circularMessage : string := "Plan contains circular dependencies".

Definition internalError : string := "Internal validation error".

Section PlanValidation.

Variable allowedPaths : list string.
Variable stackDepth : nat.

Definition fileErrors (heap : loc -> FileChange) (fs : gmap string string)
    (changes : list loc) : list string :=
  flat_map (fun l =>
              let change := heap l in
              let validation := validateFileChange allowedPaths fs change in
              if valid validation then []
              else ["File " +:+ file change +:+ ": " +:+ Js.orEmpty (error validation)])
           changes.

Definition dependencyErrors (steps : list PlanStep) : list string :=
  let stepIds : gset string := list_to_set (map id steps) in
  flat_map (fun step =>
              flat_map (fun depId =>
                          if decide (depId ∈ stepIds) then []
                          else ["Step " +:+ id step +:+ " has invalid dependency: " +:+ depId])
                       (dependencies step))
           steps.

(** [validatePlan]: the pair is [{valid, errors}]. What the traversal
    throws is caught, and the errors collected so far are dropped. *)
Definition validatePlan (heap : loc -> FileChange) (fs : gmap string string)
    (response : AIResponse) : bool * list string :=
  let errors1 := fileErrors heap fs (changes response) in
  let errors2 := dependencyErrors (steps response) in
  match hasCircularDependencies stackDepth (steps response) with
  | Some circular =>
      let errors := errors1 ++ errors2 ++ (if circular then [circularMessage] else []) in
      (match errors with [] => true | _ => false end, errors)
  | None => (false, [internalError])
  end.

End PlanValidation.

(** *** The plan store ([activePlans]) *)

Definition storePlan (response : AIResponse) (plans : gmap string AIResponse)
  : gmap string AIResponse :=
  <[responseId response := response]> plans.

Definition getPlan (plans : gmap string AIResponse) (planId : string) : option AIResponse :=
  plans !! planId.

(** [deletePlan] returns what [Map.prototype.delete] returns. *)
Definition deletePlan (planId : string) (plans : gmap string AIResponse)
  : bool * gmap string AIResponse :=
  (bool_decide (is_Some (plans !! planId)), delete planId plans).

End PlannerService.

(** ** Batch operations of the adapter ([FSAdapter.batchOperation]) *)
Module Batch.

(** The [type] of an entry; the route passes entries on unchecked, so a
    type may be none of the three the loop knows. *)
Inductive OperationType := Read | Write | Delete | Other.

Record Operation := {
  type : OperationType;
  path : string;
  content : option string
}.

Record Result := {
  success : bool;
  error : option string;
  resultContent : option string
}.

Definition succeeded (c : option string) : Result :=
  {| success := true; error := None; resultContent := c |}.

Definition failed (message : string) : Result :=
  {| success := false; error := Some message; resultContent := None |}.

(** *** The loop, over the methods it calls

    [World] is what the methods act on. A method returns or throws, and
    leaves a world either way. *)
Section Loop.

Variable World : Type.
Variable readFile : World -> string -> result string * World.
Variable writeFile : World -> string -> string -> result unit * World.
Variable deleteFile : World -> string -> result unit * World.

(** One turn of the loop: the [switch] inside its [try]/[catch]. *)
Definition runOperationWith (w : World) (operation : Operation) : Result * World :=
  match type operation with
  | Read =>
      match readFile w (path operation) with
      | (Ok c, w') => (succeeded (Some c), w')
      | (Err message, w') => (failed message, w')
      end
  | Write =>
      match writeFile w (path operation) (Js.orEmpty (content operation)) with
      | (Ok _, w') => (succeeded None, w')
      | (Err message, w') => (failed message, w')
      end
  | Delete =>
      match deleteFile w (path operation) with
      | (Ok _, w') => (succeeded None, w')
      | (Err message, w') => (failed message, w')
      end
  | Other => (failed "Unknown operation type", w)
  end.

Fixpoint batchOperationWith (w : World) (operations : list Operation)
  : list Result * World :=
  match operations with
  | [] => ([], w)
  | operation :: rest =>
      let '(r, w1) := runOperationWith w operation in
      let '(results, w2) := batchOperationWith w1 rest in
      (r :: results, w2)
  end.

End Loop.

(** *** The loop on the adapter's own methods *)
Section Batch.

Variable allowedPaths : list string.

Definition fsRead (fs : gmap string string) (filePath : string)
  : result string * gmap string string :=
  (FSAdapter.readFile allowedPaths fs filePath, fs).

Definition fsWrite (fs : gmap string string) (filePath c : string)
  : result unit * gmap string string :=
  match FSAdapter.writeFile allowedPaths fs filePath c with
  | Ok fs' => (Ok tt, fs')
  | Err message => (Err message, fs)
  end.

Definition fsDelete (fs : gmap string string) (filePath : string)
  : result unit * gmap string string :=
  match FSAdapter.deleteFile allowedPaths fs filePath with
  | Ok fs' => (Ok tt, fs')
  | Err message => (Err message, fs)
  end.

Definition runOperation (fs : gmap string string) (operation : Operation)
  : Result * gmap string string :=
  runOperationWith (gmap string string) fsRead fsWrite fsDelete fs operation.

Definition batchOperation (fs : gmap string string) (operations : list Operation)
  : list Result * gmap string string :=
  batchOperationWith (gmap string string) fsRead fsWrite fsDelete fs operations.

End Batch.

End Batch.

(** ** The transaction engine ([txn.ts]) *)
Module TransactionService.

Inductive OperationType := Backup | Apply | Rollback.

Record JournalOperation := {
  type : OperationType;
  operationFile : string;
  success : bool;
  operationError : option string
}.

Inductive Status := Pending | Completed | Failed | RolledBack.

(** Timestamps are left out: no operation modelled here reads them back. *)
Record TransactionJournal := {
  journalId : string;
  planId : string;
  operations : list JournalOperation;
  status : Status
}.

Record BackupFile := {
  path : string;
  backupContent : string;
  backupEtag : string;
  existed : bool
}.

Record TransactionBackup := {
  backupId : string;
  files : list BackupFile
}.

(** What the engine hands to the event emitter. *)
Inductive Event :=
  | ApplyProgress (txnId : string) (index total : nat) (currentFile : string) (operation : Op)
  | ApplyCompleted (txnId : string)
  | DiffValidated (currentFile : string).

(** The workspace, the heap of change objects, and the fields of the
    service. *)
Record State := {
  fs : gmap string string;
  heap : loc -> FileChange;
  activeTransactions : gmap string TransactionJournal;
  backups : gmap string TransactionBackup;
  events : list Event
}.

Record TransactionResult := {
  resultSuccess : bool;
  appliedFiles : list string;
  errors : list string
}.

Definition withFs (st : State) (fs' : gmap string string) : State :=
  {| fs := fs'; heap := heap st; activeTransactions := activeTransactions st;
     backups := backups st; events := events st |}.

Definition emit (e : Event) (st : State) : State :=
  {| fs := fs st; heap := heap st; activeTransactions := activeTransactions st;
     backups := backups st; events := events st ++ [e] |}.

(** A mutation of the journal object of [txnId], which the map holds. *)
Definition updateJournal (txnId : string) (f : TransactionJournal -> TransactionJournal)
    (st : State) : State :=
  {| fs := fs st; heap := heap st;
     activeTransactions := alter f txnId (activeTransactions st);
     backups := backups st; events := events st |}.

Definition pushOperation (o : JournalOperation) (j : TransactionJournal) : TransactionJournal :=
  {| journalId := journalId j; planId := planId j;
     operations := operations j ++ [o]; status := status j |}.

Definition setStatus (s : Status) (j : TransactionJournal) : TransactionJournal :=
  {| journalId := journalId j; planId := planId j;
     operations := operations j; status := s |}.

(** [change.applyMethod = m], in place. *)
Definition setApplyMethod (m : ApplyMethod) (change : FileChange) : FileChange :=
  {| file := file change; op := op change; applyMethod := m; diff := diff change;
     content := content change; newPath := newPath change;
     insertAtLine := insertAtLine change; backup := backup change |}.

Definition store (h : loc -> FileChange) (l : loc) (change : FileChange) : loc -> FileChange :=
  fun l' => if Nat.eqb l' l then change else h l'.

Definition newline : ascii := ascii_of_nat 10.

Section Engine.

Variable allowedPaths : list string.

(** The [etag] package: a fingerprint of a content. *)
Variable etag : string -> string.

(** *** Phase 1: backups *)

Definition backupEntry (fs : gmap string string) (change : FileChange) : list BackupFile :=
  match op change with
  | OpUpdate | OpDelete =>
      if FSAdapter.exists_ allowedPaths fs (file change) then
        match FSAdapter.readFile allowedPaths fs (file change) with
        | Ok c =>
            [{| path := file change; backupContent := c; backupEtag := etag c;
                existed := true |}]
        | Err _ => []
        end
      else
        [{| path := file change; backupContent := EmptyString;
            backupEtag := EmptyString; existed := false |}]
  | OpCreate | OpRename => []
  end.

Definition createBackups (txnId : string) (changes : list loc) (st : State) : State :=
  let backup :=
    {| backupId := txnId;
       files := flat_map (fun l => backupEntry (fs st) (heap st l)) changes |} in
  {| fs := fs st; heap := heap st; activeTransactions := activeTransactions st;
     backups := <[txnId := backup]> (backups st); events := events st |}.

(** *** Phase 2: validation *)

Definition validateDiff (diffText : string) : bool :=
  Js.includes diffText "@@" && (Js.includes diffText "+" || Js.includes diffText "-").

(** One turn of the loop of [validateChanges] on the object at [l]; the
    result is what is pushed, with the heap and the events emitted. *)
Definition validateChange (fs : gmap string string) (l : loc)
    (h : loc -> FileChange) : Validation * (loc -> FileChange) * list Event :=
  let change := h l in
  if negb (FSAdapter.isPathAllowed allowedPaths (file change)) then
    (reject "Path not allowed", h, [])
  else
    match (match op change with
           | OpUpdate => FSAdapter.readFile allowedPaths fs (file change)
           | _ => Ok EmptyString
           end) with
    | Err message => (reject message, h, [])
    | Ok _ =>
        match applyMethod change with
        | Diff =>
            if Js.truthy (diff change) then
              if validateDiff (Js.orEmpty (diff change)) then (accept, h, [])
              else
                let h' := store h l (setApplyMethod ReplaceFile change) in
                if negb (Js.truthy (content change)) then
                  (reject "Diff invalid and no fallback content provided", h',
                   [DiffValidated (file change)])
                else (accept, h', [DiffValidated (file change)])
            else (accept, h, [])
        | _ => (accept, h, [])
        end
    end.

Fixpoint validateChanges (fs : gmap string string) (changes : list loc)
    (h : loc -> FileChange) : list Validation * (loc -> FileChange) * list Event :=
  match changes with
  | [] => ([], h, [])
  | l :: rest =>
      let '(r, h1, evs1) := validateChange fs l h in
      let '(results, h2, evs2) := validateChanges fs rest h1 in
      (r :: results, h2, evs1 ++ evs2)
  end.

(** When the loop of [validateChanges] reaches a change like [change] at
    [l], it sets its apply method to [replaceFile]. *)
Definition reachesFallback (fs : gmap string string) (change : FileChange) : Prop :=
  applyMethod change = Diff
  /\ Js.truthy (diff change) = true
  /\ validateDiff (Js.orEmpty (diff change)) = false
  /\ FSAdapter.isPathAllowed allowedPaths (file change) = true
  /\ (op change = OpUpdate ->
      exists cur, FSAdapter.readFile allowedPaths fs (file change) = Ok cur).

(** *** Phase 3: applying one change *)

Definition insertAtLine (fs : gmap string string) (filePath : string)
    (lineNumber : Z) (newContent : string) : result (gmap string string) :=
  match FSAdapter.readFile allowedPaths fs filePath with
  | Err message => Err message
  | Ok currentContent =>
      let lines := Js.split newline currentContent in
      let lines' := Js.spliceInsert lines (lineNumber - 1) newContent in
      FSAdapter.writeFile allowedPaths fs filePath (Js.join (String newline EmptyString) lines')
  end.

Definition applyDiff (fs : gmap string string) (filePath diffText : string)
  : result (gmap string string) :=
  Err "Diff application not yet implemented - use replaceFile method".

Definition applyUpdate (fs : gmap string string) (change : FileChange)
  : result (gmap string string) :=
  match applyMethod change with
  | ReplaceFile =>
      if negb (Js.truthy (content change)) then
        Err "Content required for replaceFile method"
      else FSAdapter.writeFile allowedPaths fs (file change) (Js.orEmpty (content change))
  | Diff =>
      if negb (Js.truthy (diff change)) then Err "Diff required for diff method"
      else applyDiff fs (file change) (Js.orEmpty (diff change))
  | InsertAtLine =>
      match Contracts.insertAtLine change with
      | Some lineNumber =>
          if negb (Js.truthy (content change)) then
            Err "Line number and content required for insertAtLine method"
          else insertAtLine fs (file change) lineNumber (Js.orEmpty (content change))
      | None => Err "Line number and content required for insertAtLine method"
      end
  end.

(** [formatFile] only writes to the log, so the format-on-save step that
    ends [applyFileChange] leaves no trace here. *)
Definition applyFileChange (fs : gmap string string) (change : FileChange)
    (options : ApplyOptions) : result (gmap string string) :=
  match op change with
  | OpCreate => FSAdapter.writeFile allowedPaths fs (file change) (Js.orEmpty (content change))
  | OpUpdate => applyUpdate fs change
  | OpDelete => FSAdapter.deleteFile allowedPaths fs (file change)
  | OpRename =>
      if negb (Js.truthy (newPath change)) then
        Err "New path required for rename operation"
      else FSAdapter.renameFile allowedPaths fs (file change) (Js.orEmpty (newPath change))
  end.

(** *** Rollback *)

(** One turn of the loop of [rollbackTransaction]; a failure is logged
    and the workspace stays as it was. *)
Definition restoreFile (fs : gmap string string) (b : BackupFile) : gmap string string :=
  if existed b then
    match FSAdapter.writeFile allowedPaths fs (path b) (backupContent b) with
    | Ok fs' => fs'
    | Err _ => fs
    end
  else if FSAdapter.exists_ allowedPaths fs (path b) then
    match FSAdapter.deleteFile allowedPaths fs (path b) with
    | Ok fs' => fs'
    | Err _ => fs
    end
  else fs.

Definition rollbackTransaction (txnId : string) (st : State) : result State :=
  match backups st !! txnId with
  | None => Err ("No backup found for transaction " +:+ txnId)
  | Some backup =>
      let fs' := fold_left restoreFile (files backup) (fs st) in
      Ok (updateJournal txnId
            (fun j => pushOperation
                        {| type := Rollback; operationFile := "all"; success := true;
                           operationError := None |}
                        (setStatus RolledBack j))
            (withFs st fs'))
  end.

(** *** The apply loop of [executeTransaction]

    [index] is the loop counter, [total] is [changes.length]; the result
    is the pair of [appliedFiles] and [errors], or the error thrown. *)
Fixpoint applyChanges (txnId : string) (options : ApplyOptions) (total index : nat)
    (changes : list loc) (applied errs : list string) (st : State)
  : result (list string * list string) * State :=
  match changes with
  | [] => (Ok (applied, errs), st)
  | l :: rest =>
      let change := heap st l in
      let st1 := emit (ApplyProgress txnId index total (file change) (op change)) st in
      match applyFileChange (fs st1) change options with
      | Ok fs' =>
          let st2 :=
            updateJournal txnId
              (pushOperation {| type := Apply; operationFile := file change;
                                success := true; operationError := None |})
              (withFs st1 fs') in
          applyChanges txnId options total (S index) rest (applied ++ [file change]) errs st2
      | Err message =>
          let errorMsg := "Failed to apply change to " +:+ file change +:+ ": " +:+ message in
          let st2 :=
            updateJournal txnId
              (pushOperation {| type := Apply; operationFile := file change;
                                success := false; operationError := Some errorMsg |})
              st1 in
          if negb (dryRun options) then
            match rollbackTransaction txnId st2 with
            | Err thrown => (Err thrown, st2)
            | Ok st3 =>
                (Err ("Transaction failed and rolled back: " +:+ errorMsg),
                 updateJournal txnId (setStatus RolledBack) st3)
            end
          else applyChanges txnId options total (S index) rest applied (errs ++ [errorMsg]) st2
      end
  end.

Definition validationMessage (results : list Validation) : string :=
  "Validation failed: " +:+
  Js.join ", " (map (fun r => Js.orEmpty (error r))
                    (List.filter (fun r => negb (valid r)) results)).

(** [executeTransaction]; [txnId] is the identifier [uuidv4()] draws. *)
Definition executeTransaction (txnId planIdent : string) (changes : list loc)
    (options : ApplyOptions) (st : State) : result TransactionResult * State :=
  let journal :=
    {| journalId := txnId; planId := planIdent; operations := []; status := Pending |} in
  let st0 :=
    {| fs := fs st; heap := heap st;
       activeTransactions := <[txnId := journal]> (activeTransactions st);
       backups := backups st; events := events st |} in
  let st1 :=
    if Contracts.createBackups options then createBackups txnId changes st0 else st0 in
  let '(validationResults, h2, evs) := validateChanges (fs st1) changes (heap st1) in
  let st2 :=
    {| fs := fs st1; heap := h2; activeTransactions := activeTransactions st1;
       backups := backups st1; events := events st1 ++ evs |} in
  let outcome :=
    if existsb (fun r => negb (valid r)) validationResults then
      (Err (validationMessage validationResults), st2)
    else
      match applyChanges txnId options (length changes) 0 changes [] [] st2 with
      | (Ok (applied, errs), st3) =>
          let st4 := emit (ApplyCompleted txnId) (updateJournal txnId (setStatus Completed) st3) in
          (Ok {| resultSuccess := match errs with [] => true | _ => false end;
                 appliedFiles := applied; errors := errs |}, st4)
      | (Err thrown, st3) => (Err thrown, st3)
      end in
  match outcome with
  | (Err thrown, st') => (Err thrown, updateJournal txnId (setStatus Failed) st')
  | (Ok r, st') => (Ok r, st')
  end.

End Engine.

Definition getTransactionStatus (txnId : string) (st : State) : option TransactionJournal :=
  activeTransactions st !! txnId.

End TransactionService.

(** ** The plan-apply route ([POST /ai/plan/:planId/apply]) *)
Module Routes.

(** The route module's planner (its plan store) and transaction service. *)
Record Server := {
  activePlans : gmap string PlannerService.AIResponse;
  transactions : TransactionService.State
}.

Inductive Response :=
  | PlanNotFound
  | Applied (r : TransactionService.TransactionResult)
  | PlanApplyFailed (message : string).

Section Routes.

Variable allowedPaths : list string.
Variable etag : string -> string.

(** [plan.changes], or its [filter] by [selectedFiles] when some are
    selected: the same objects either way. *)
Definition changesToApply (h : loc -> FileChange) (plan : PlannerService.AIResponse)
    (selectedFiles : option (list string)) : list loc :=
  match selectedFiles with
  | Some (f :: fl) =>
      List.filter (fun l => existsb (String.eqb (file (h l))) (f :: fl))
                  (PlannerService.changes plan)
  | _ => PlannerService.changes plan
  end.

Definition applyPlan (txnId planId : string) (selectedFiles : option (list string))
    (options : ApplyOptions) (srv : Server) : Response * Server :=
  match activePlans srv !! planId with
  | None => (PlanNotFound, srv)
  | Some plan =>
      let selected :=
        changesToApply (TransactionService.heap (transactions srv)) plan selectedFiles in
      match TransactionService.executeTransaction allowedPaths etag txnId planId
              selected options (transactions srv) with
      | (Ok r, st') =>
          (Applied r, {| activePlans := activePlans srv; transactions := st' |})
      | (Err message, st') =>
          (PlanApplyFailed message, {| activePlans := activePlans srv; transactions := st' |})
      end
  end.

End Routes.

(** *** [POST /ai/plan]

    [aiResponse] is what the AI service generated; its change objects
    are in the heap. The response object is the one the store holds, so
    the warning pushed after [storePlan] shows in the store as well. *)
Section PlanRoute.

Variable allowedPaths : list string.
Variable stackDepth : nat.

Definition limitWarning : string := "Plan exceeds maximum file change limit".

(** [request.modes?.maxFilesChanged || 10] *)
Definition fileChangeLimit (maxFilesChanged : option Z) : Z :=
  match maxFilesChanged with
  | Some n => if (n =? 0)%Z then 10%Z else n
  | None => 10%Z
  end.

Definition withWarnings (response : PlannerService.AIResponse) (w : list string)
  : PlannerService.AIResponse :=
  {| PlannerService.responseId := PlannerService.responseId response;
     PlannerService.steps := PlannerService.steps response;
     PlannerService.changes := PlannerService.changes response;
     PlannerService.warnings := w |}.

(** The result is the response sent and the server afterwards. *)
Definition postPlan (maxFilesChanged : option Z) (aiResponse : PlannerService.AIResponse)
    (srv : Server) : PlannerService.AIResponse * Server :=
  let '(isValid, validationErrors) :=
    PlannerService.validatePlan allowedPaths stackDepth
      (TransactionService.heap (transactions srv))
      (TransactionService.fs (transactions srv)) aiResponse in
  let w1 := PlannerService.warnings aiResponse
            ++ (if isValid then [] else validationErrors) in
  let w2 := w1 ++ (if (fileChangeLimit maxFilesChanged
                        <? Z.of_nat (length (PlannerService.changes aiResponse)))%Z
                   then [limitWarning] else []) in
  let stored := withWarnings aiResponse w2 in
  (stored,
   {| activePlans := PlannerService.storePlan stored (activePlans srv);
      transactions := transactions srv |}).

End PlanRoute.

End Routes.

(** ** The file routes ([files.routes.ts]) *)
Module FilesRoutes.

Inductive Response :=
  | ErrorBody (status : nat) (code message : string)
  | Conflict (currentEtag expectedEtag : string)
  | Saved (metadata : FSAdapter.FileMetadata)
  | FileContent (body : string) (metadata : FSAdapter.FileMetadata)
  | MetadataOnly (metadata : FSAdapter.FileMetadata).

(** The [catch] of each handler: the status and code depend on whether
    the message mentions [not allowed]. *)
Definition failure (fallbackCode message : string) : Response :=
  if Js.includes message "not allowed" then ErrorBody 403 "PATH_FORBIDDEN" message
  else ErrorBody 500 fallbackCode message.

Definition invalidPath : Response := ErrorBody 400 "INVALID_PATH" "File path is required".

Section FilesRoutes.

Variable allowedPaths : list string.
Variable etag : string -> string.

(** [GET /files/content] *)
Definition getContent (fs : gmap string string) (filePath : option string) : Response :=
  if negb (Js.truthy filePath) then invalidPath
  else
    let p := Js.orEmpty filePath in
    match FSAdapter.readFile allowedPaths fs p with
    | Err message => failure "FILE_READ_FAILED" message
    | Ok c =>
        match FSAdapter.getFileMetadata allowedPaths etag fs p with
        | Err message => failure "FILE_READ_FAILED" message
        | Ok metadata => FileContent c metadata
        end
    end.

(** [POST /files/save]; a [content] that is not a string is [None]. *)
Definition save (fs : gmap string string) (filePath content expectedEtag : option string)
  : Response * gmap string string :=
  if negb (Js.truthy filePath) then (invalidPath, fs)
  else
    match content with
    | None => (ErrorBody 400 "INVALID_CONTENT" "Content must be a string", fs)
    | Some c =>
        let p := Js.orEmpty filePath in
        let stale :=
          if Js.truthy expectedEtag && FSAdapter.exists_ allowedPaths fs p then
            match FSAdapter.readFile allowedPaths fs p with
            | Err message => Some (failure "FILE_SAVE_FAILED" message)
            | Ok currentContent =>
                if String.eqb (etag currentContent) (Js.orEmpty expectedEtag) then None
                else Some (Conflict (etag currentContent) (Js.orEmpty expectedEtag))
            end
          else None in
        match stale with
        | Some response => (response, fs)
        | None =>
            match FSAdapter.writeFile allowedPaths fs p c with
            | Err message => (failure "FILE_SAVE_FAILED" message, fs)
            | Ok fs' =>
                match FSAdapter.getFileMetadata allowedPaths etag fs' p with
                | Err message => (failure "FILE_SAVE_FAILED" message, fs')
                | Ok metadata => (Saved metadata, fs')
                end
            end
        end
    end.

(** [GET /files/metadata] *)
Definition getMetadata (fs : gmap string string) (filePath : option string) : Response :=
  if negb (Js.truthy filePath) then invalidPath
  else
    match FSAdapter.getFileMetadata allowedPaths etag fs (Js.orEmpty filePath) with
    | Err message => failure "METADATA_FAILED" message
    | Ok metadata => MetadataOnly metadata
    end.

End FilesRoutes.

End FilesRoutes.

(** ** The event notifier ([events.ts]) *)
Module EventEmitter.

Inductive ReadyState := Connecting | Open | Closing | Closed.

(** A connection as [broadcast] sees it: its identity, its state, and
    whether [send] throws. *)
Record WebSocket := {
  socketId : nat;
  readyState : ReadyState;
  sendThrows : bool
}.

Definition isOpen (ws : WebSocket) : bool :=
  match readyState ws with
  | Open => true
  | _ => false
  end.

(** The first loop of [broadcast]: the connections the message was sent
    to, and [deadConnections], both in the order of the set. *)
Fixpoint sendAll (connections : list WebSocket) : list WebSocket * list WebSocket :=
  match connections with
  | [] => ([], [])
  | ws :: rest =>
      let '(sent, dead) := sendAll rest in
      if isOpen ws then
        if sendThrows ws then (sent, ws :: dead) else (ws :: sent, dead)
      else (sent, ws :: dead)
  end.

(** [connections.delete(ws)] on the set, kept in insertion order. *)
Definition deleteConnection (connections : list WebSocket) (ws : WebSocket)
  : list WebSocket :=
  List.filter (fun c => negb (Nat.eqb (socketId c) (socketId ws))) connections.

(** [broadcast]: the connections that received the message, and the
    connection set afterwards. *)
Definition broadcast (connections : list WebSocket) : list WebSocket * list WebSocket :=
  let '(sent, dead) := sendAll connections in
  (sent, fold_left deleteConnection dead connections).

End EventEmitter.

(** ** The step-dependency graph a plan denotes *)
Module PlanGraph.

(** [dependsOn steps x d]: the step that the id [x] designates lists [d]
    among its dependencies. *)
Definition dependsOn (steps : list PlanStep) (x d : string) : Prop :=
  exists step, PlannerService.findStep steps x = Some step /\ In d (dependencies step).

(** A cycle: some step reaches itself along at least one dependency. *)
Definition cyclic (steps : list PlanStep) : Prop :=
  exists x, tc (dependsOn steps) x x.

(** A dangling dependency: an id listed by a step that no step carries. *)
Definition dangling (steps : list PlanStep) : Prop :=
  exists step depId,
    In step steps /\ In depId (dependencies step) /\ ~ In depId (map id steps).

(** *** What the traversal maintains *)

Section Traversal.

Variable steps : list PlanStep.

(** The traversal's invariant on [visited] ([V]) and [recursionStack]
    ([S]): the finished nodes, those visited and off the stack, are
    closed under dependencies and lie on no cycle. *)
Definition Inv (V S : gset string) : Prop :=
  S ⊆ V
  /\ (forall x d, x ∈ V -> x ∉ S -> dependsOn steps x d -> (d ∈ V) /\ (d ∉ S))
  /\ (forall x, x ∈ V -> x ∉ S -> ~ tc (dependsOn steps) x x).

(** What a call of [hasCycle] (or of its loop) on [x] establishes. *)
Definition callSpec (recurse : string -> PlannerService.Marks -> option (bool * PlannerService.Marks)) : Prop :=
  forall x V S b V' S',
    Inv V S ->
    (forall y, y ∈ S -> tc (dependsOn steps) y x) ->
    recurse x (V, S) = Some (b, (V', S')) ->
    if b then cyclic steps
    else S' = S /\ (V ⊆ V') /\ (x ∈ V') /\ (x ∉ S) /\ Inv V' S.

(** A call returns when its fuel exceeds the number of identifiers not
    yet visited, and it only adds to [visited]. *)
Definition returns (fuel : nat)
    (recurse : string -> PlannerService.Marks -> option (bool * PlannerService.Marks)) : Prop :=
  forall x V S,
    x ∈ PlannerService.nodes steps ->
    size (PlannerService.nodes steps ∖ V) < fuel ->
    exists b V' S', recurse x (V, S) = Some (b, (V', S')) /\ V ⊆ V'.

End Traversal.

End PlanGraph.

(** ** The per-change preconditions, in the specification's words *)
Module ChangeSpec.

(** A payload field that is absent. *)
Definition absent (o : option string) : Prop := o = None.

(** A payload field that is absent or holds the empty string. *)
Definition absentOrEmpty (o : option string) : Prop := o = None \/ o = Some EmptyString.

Section Preconditions.

Variable missing : option string -> Prop.
Variable allowedPaths : list string.
Variable fs : gmap string string.

(** The change fails a precondition of its operation or of its apply
    method; [missing] says when a payload field counts as missing. *)
Definition failsPrecondition (change : FileChange) : Prop :=
  FSAdapter.isPathAllowed allowedPaths (file change) = false
  \/ (op change = OpCreate /\ FSAdapter.exists_ allowedPaths fs (file change) = true)
  \/ ((op change = OpUpdate \/ op change = OpDelete)
      /\ FSAdapter.exists_ allowedPaths fs (file change) = false)
  \/ (op change = OpRename
      /\ (FSAdapter.exists_ allowedPaths fs (file change) = false
          \/ missing (newPath change)))
  \/ (applyMethod change = Diff /\ missing (diff change))
  \/ (applyMethod change = ReplaceFile /\ missing (content change))
  \/ (applyMethod change = InsertAtLine
      /\ (insertAtLine change = None \/ missing (content change))).

End Preconditions.

(** What the transaction engine asks of a change before it applies any,
    in the words of the amended claim: the path passes the policy, the
    target of an update can be read, and a given diff that fails the
    structural check has content to fall back on. *)
Definition engineCheck (allowedPaths : list string) (fs : gmap string string)
    (change : FileChange) : Validation :=
  if negb (FSAdapter.isPathAllowed allowedPaths (file change)) then
    reject "Path not allowed"
  else if match op change with
          | OpUpdate => negb (FSAdapter.exists_ allowedPaths fs (file change))
          | _ => false
          end then
    reject ("Failed to read file: " +:+ file change)
  else if match applyMethod change with Diff => true | _ => false end
          && Js.truthy (diff change)
          && negb (TransactionService.validateDiff (Js.orEmpty (diff change)))
          && negb (Js.truthy (content change)) then
    reject "Diff invalid and no fallback content provided"
  else accept.

End ChangeSpec.

(** ** Sample plans *)
Module Samples.

Definition step (stepId : string) (deps : list string) : PlanStep :=
  {| id := stepId; dependencies := deps |}.

(** Steps A, B, C, each depending on the next, C on A. *)
Definition cycleABC : list PlanStep :=
  [ step "A" ["B"]; step "B" ["C"]; step "C" ["A"] ].

Definition cyclePlan : PlannerService.AIResponse :=
  {| PlannerService.responseId := "plan-cycle";
     PlannerService.steps := cycleABC;
     PlannerService.changes := [];
     PlannerService.warnings := [] |}.

(** A call stack with room for a thousand nested calls. *)
Definition callStack : nat := 1000.

(** Step ids [s], [si], [sii], ... *)
Fixpoint tally (n : nat) : string :=
  match n with
  | O => EmptyString
  | S n' => String "i" (tally n')
  end.

Definition stepId (i : nat) : string := String "s" (tally i).

(** The ring of [m + 1] steps: each depends on the next, the last on the
    first. *)
Definition ring (m : nat) : list PlanStep :=
  map (fun i => step (stepId i) [stepId (if Nat.eqb i m then 0 else S i)]) (seq 0 (S m)).

Definition ringPlan (m : nat) : PlannerService.AIResponse :=
  {| PlannerService.responseId := "plan-ring";
     PlannerService.steps := ring m;
     PlannerService.changes := [];
     PlannerService.warnings := [] |}.

(** Creating an empty file: the content is present and empty. *)
Definition createEmptyFile : FileChange :=
  {| file := "src/New.ts"; op := OpCreate; applyMethod := ReplaceFile;
     diff := None; content := Some EmptyString; newPath := None;
     insertAtLine := None; backup := true |}.

Definition emptyFilePlan : PlannerService.AIResponse :=
  {| PlannerService.responseId := "plan-empty-file";
     PlannerService.steps := [];
     PlannerService.changes := [0];
     PlannerService.warnings := [] |}.

(** *** Transactions *)

Definition change (f : string) (o : Op) (m : ApplyMethod) (c : option string) : FileChange :=
  {| file := f; op := o; applyMethod := m; diff := None; content := c;
     newPath := None; insertAtLine := None; backup := true |}.

Definition withDiff (d : string) (c : FileChange) : FileChange :=
  {| file := file c; op := op c; applyMethod := applyMethod c; diff := Some d;
     content := content c; newPath := newPath c; insertAtLine := insertAtLine c;
     backup := backup c |}.


(** A service that has run no transaction yet. *)
Definition fresh (files : gmap string string) (h : loc -> FileChange)
  : TransactionService.State :=
  {| TransactionService.fs := files; TransactionService.heap := h;
     TransactionService.activeTransactions := ∅; TransactionService.backups := ∅;
     TransactionService.events := [] |}.

Definition withBackups : ApplyOptions :=
  {| createBackups := true; formatOnSave := false; dryRun := false |}.

Definition dryRunOnly : ApplyOptions :=
  {| createBackups := true; formatOnSave := false; dryRun := true |}.

Definition nl : string := String TransactionService.newline EmptyString.

(** A unified diff that passes the structural check. *)
Definition wellFormedDiff : string :=
  "@@ -1 +1 @@" +:+ nl +:+ "-old" +:+ nl +:+ "+new".

(** A create of [src/a.ts] followed by a diff update of the existing
    [src/b.ts]; both pass every validation, the second cannot be applied. *)
Definition createThenDiff (l : loc) : FileChange :=
  match l with
  | 0 => change "src/a.ts" OpCreate ReplaceFile (Some "export const a = 1;")
  | _ => withDiff wellFormedDiff (change "src/b.ts" OpUpdate Diff None)
  end.

Definition onlyB : gmap string string := {[ "src/b.ts" := "old" ]}.

(** A create of a file that exists. *)
Definition createExisting (l : loc) : FileChange :=
  change "src/b.ts" OpCreate ReplaceFile (Some "new").

(** A create, a delete of a missing file, and another create. *)
Definition createDeleteCreate (l : loc) : FileChange :=
  match l with
  | 0 => change "src/a.ts" OpCreate ReplaceFile (Some "a")
  | 1 => change "src/missing.ts" OpDelete ReplaceFile None
  | _ => change "src/c.ts" OpCreate ReplaceFile (Some "c")
  end.





(** A diff change with a malformed diff and a literal content, outside
    the allow-list and inside it. *)
Definition badDiffOutside (l : loc) : FileChange :=
  withDiff "not a diff" (change "secrets/key.ts" OpCreate Diff (Some "content")).

Definition badDiffInside (l : loc) : FileChange :=
  withDiff "not a diff" (change "src/a.ts" OpCreate Diff (Some "content")).

Definition storedPlan : PlannerService.AIResponse :=
  {| PlannerService.responseId := "plan-1";
     PlannerService.steps := [];
     PlannerService.changes := [0];
     PlannerService.warnings := [] |}.

Definition server (files : gmap string string) (h : loc -> FileChange) : Routes.Server :=
  {| Routes.activePlans := {[ "plan-1" := storedPlan ]};
     Routes.transactions := fresh files h |}.

(** A stand-in for the [etag] package. *)
Definition etag (c : string) : string := "W/" +:+ c.

(** *** More workspaces and changes *)

(** A file outside the allow-list beside one inside. *)
Definition withOutsider : gmap string string :=
  {[ "etc/passwd" := "root"; "src/b.ts" := "old" ]}.

Definition withoutBackups : ApplyOptions :=
  {| createBackups := false; formatOnSave := false; dryRun := false |}.

(** Scenario 1 of the specification: one create. *)
Definition createNew (l : loc) : FileChange :=
  change "src/New.ts" OpCreate ReplaceFile (Some "export const x = 1;").

(** An update of [src/b.ts] followed by a delete of a missing file. *)
Definition updateThenFail (l : loc) : FileChange :=
  match l with
  | 0 => change "src/b.ts" OpUpdate ReplaceFile (Some "new")
  | _ => change "src/missing.ts" OpDelete ReplaceFile None
  end.


(** Two files in the workspace. *)
Definition twoFiles : gmap string string :=
  {[ "src/a.ts" := "first"; "src/b.ts" := "second" ]}.

Definition batchOps : list Batch.Operation :=
  [ {| Batch.type := Batch.Write; Batch.path := "src/a.ts"; Batch.content := Some "a" |};
    {| Batch.type := Batch.Write; Batch.path := "etc/passwd"; Batch.content := Some "x" |};
    {| Batch.type := Batch.Delete; Batch.path := "src/b.ts"; Batch.content := None |} ].

Definition sockets : list EventEmitter.WebSocket :=
  [ {| EventEmitter.socketId := 1; EventEmitter.readyState := EventEmitter.Open;
       EventEmitter.sendThrows := false |};
    {| EventEmitter.socketId := 2; EventEmitter.readyState := EventEmitter.Closed;
       EventEmitter.sendThrows := false |};
    {| EventEmitter.socketId := 3; EventEmitter.readyState := EventEmitter.Open;
       EventEmitter.sendThrows := true |};
    {| EventEmitter.socketId := 4; EventEmitter.readyState := EventEmitter.Open;
       EventEmitter.sendThrows := false |} ].

End Samples.

(** ** Vocabulary for the properties of the workspace *)
Module Workspace.

(** A key lies under the allow-list when it starts with one of its
    entries. *)
Definition guarded (allowedPaths : list string) (key : string) : bool :=
  existsb (fun allowedPath => Js.startsWith key allowedPath) allowedPaths.


(** The journal of the transaction is in the map, under its id and plan
    id. *)
Definition journalOf (txnId planId : string) (st : TransactionService.State) : Prop :=
  exists j, TransactionService.activeTransactions st !! txnId = Some j
            /\ TransactionService.journalId j = txnId
            /\ TransactionService.planId j = planId.


End Workspace.

(* ================================================================== *)
(** * Part II: properties                                               *)
(* ================================================================== *)

(** ** Strings *)

Lemma append_nil_l (s : string) : EmptyString +:+ s = s.
Proof. reflexivity. Qed.

Lemma append_cons (c : ascii) (a s : string) : String c a +:+ s = String c (a +:+ s).
Proof. reflexivity. Qed.

Lemma append_nil_r (s : string) : s +:+ EmptyString = s.
Proof. induction s as [|c s IH]; [reflexivity|]. rewrite append_cons, IH. reflexivity. Qed.

Lemma app_assoc_string (a b c : string) : (a +:+ b) +:+ c = a +:+ (b +:+ c).
Proof.
  induction a as [|x a IH]; [reflexivity|]. rewrite !append_cons, IH. reflexivity.
Qed.

Ltac str_simpl := rewrite ?append_nil_l, ?append_cons, ?append_nil_r in *.

Lemma startsWith_iff (s p : string) :
  Js.startsWith s p = true <-> exists t, s = p +:+ t.
Proof.
  revert s. induction p as [|c p IH]; intros s; simpl.
  - split; [intros _; exists s; reflexivity | reflexivity].
  - destruct s as [|d s].
    + split; [discriminate | intros [t Ht]; discriminate].
    + rewrite andb_true_iff, Ascii.eqb_eq, IH. split.
      * intros [-> [t ->]]. exists t. reflexivity.
      * intros [t Ht]. injection Ht as -> ->. split; [reflexivity | exists t; reflexivity].
Qed.

(** Two consecutive dots somewhere in the string. *)
Lemma includes_dotdot_cons (c : ascii) (s : string) :
  Js.includes (String c s) ".." =
  (Ascii.eqb c "."%char && Js.startsWith s ".") || Js.includes s "..".
Proof.
  cbn [Js.includes Js.startsWith]. rewrite (Ascii.eqb_sym "."%char c).
  destruct s as [|d s]; cbn [Js.startsWith]; rewrite ?andb_true_r; reflexivity.
Qed.

Lemma split_nonempty (sep : ascii) (s : string) : Js.split sep s <> [].
Proof.
  induction s as [|c s IH]; simpl; [discriminate|].
  destruct (Ascii.eqb c sep); [discriminate|].
  destruct (Js.split sep s); [contradiction | discriminate].
Qed.

(** The head segment starts with a dot exactly when the string does. *)
Lemma split_head_startsdot (s : string) :
  match Js.split Path.sep s with
  | seg :: _ => Js.startsWith seg "." = Js.startsWith s "."
  | [] => True
  end.
Proof.
  destruct s as [|c s]; simpl; [reflexivity|].
  destruct (Ascii.eqb_spec c Path.sep) as [->|Hne]; [reflexivity|].
  pose proof (split_nonempty Path.sep s) as Hs.
  destruct (Js.split Path.sep s) as [|seg rest]; [contradiction|].
  reflexivity.
Qed.

Lemma includes_dotdot_split (s : string) :
  Js.includes s ".." = existsb (fun seg => Js.includes seg "..") (Js.split Path.sep s).
Proof.
  induction s as [|c s IH]; [reflexivity|].
  rewrite includes_dotdot_cons. cbn [Js.split].
  destruct (Ascii.eqb_spec c Path.sep) as [->|Hne].
  - cbn. exact IH.
  - pose proof (split_head_startsdot s) as Hh.
    pose proof (split_nonempty Path.sep s) as Hs.
    destruct (Js.split Path.sep s) as [|seg rest]; [contradiction|].
    cbn [existsb] in *. rewrite includes_dotdot_cons, IH, Hh.
    rewrite orb_assoc. reflexivity.
Qed.

Lemma traversal_segment_includes (s : string) :
  Path.hasTraversalSegment s = true -> Js.includes s ".." = true.
Proof.
  unfold Path.hasTraversalSegment. rewrite includes_dotdot_split.
  rewrite !existsb_exists. intros [seg [Hin Heq]].
  apply String.eqb_eq in Heq. subst seg. exists "..". split; [assumption | reflexivity].
Qed.

(** ** The path policy guard *)

Lemma isPathAllowed_intro (allowedPaths : list string) (filePath allowedPath : string) :
  Js.includes (Path.normalize filePath) ".." = false ->
  Js.startsWith (Path.normalize filePath) "/" = false ->
  In allowedPath allowedPaths ->
  Js.startsWith (Path.normalize filePath) allowedPath = true ->
  FSAdapter.isPathAllowed allowedPaths filePath = true.
Proof.
  intros Hdots Habs Hin Hpre. unfold FSAdapter.isPathAllowed.
  rewrite Hdots, Habs. cbn [orb]. rewrite existsb_exists.
  exists allowedPath. split; [assumption|]. rewrite Hpre. reflexivity.
Qed.

(** C3. The guard rejects every path whose normal form has a [..] segment
    or is absolute, and what it accepts has a normal form that starts
    with (or equals) an entry of the allow-list; the three paths of the
    specification are judged as stated. *)
Theorem isPathAllowed_policy (allowedPaths : list string) (filePath : string) :
  (Path.hasTraversalSegment (Path.normalize filePath) = true
   \/ Path.isAbsolute (Path.normalize filePath) = true ->
   FSAdapter.isPathAllowed allowedPaths filePath = false)
  /\ (FSAdapter.isPathAllowed allowedPaths filePath = true ->
      exists allowedPath,
        In allowedPath allowedPaths
        /\ (Js.startsWith (Path.normalize filePath) allowedPath = true
            \/ Path.normalize filePath = allowedPath))
  /\ FSAdapter.isPathAllowed allowedPaths "../../etc/passwd" = false
  /\ FSAdapter.isPathAllowed allowedPaths "/etc/passwd" = false
  /\ (In "src/" allowedPaths ->
      FSAdapter.isPathAllowed allowedPaths "src/App.tsx" = true).
Proof.
  unfold FSAdapter.isPathAllowed. repeat split.
  - intros [Hseg|Habs].
    + rewrite (traversal_segment_includes _ Hseg). reflexivity.
    + unfold Path.isAbsolute in Habs. rewrite Habs, orb_true_r. reflexivity.
  - destruct (_ || _); [discriminate|].
    rewrite existsb_exists. intros [a [Hin Ha]]. exists a. split; [assumption|].
    apply orb_true_iff in Ha as [Ha|Ha]; [left; assumption | right].
    apply String.eqb_eq. assumption.
  - intros Hin. fold (FSAdapter.isPathAllowed allowedPaths "src/App.tsx").
    apply (isPathAllowed_intro _ _ "src/"); [reflexivity | reflexivity | assumption | reflexivity].
Qed.

Lemma isPathAllowed_policy_witness :
  In "src/" FSAdapter.defaultAllowedPaths
  /\ FSAdapter.isPathAllowed FSAdapter.defaultAllowedPaths "src/App.tsx" = true.
Proof.
  assert (Hin : In "src/" FSAdapter.defaultAllowedPaths) by (left; reflexivity).
  split; [exact Hin|].
  exact (proj2 (proj2 (proj2 (proj2
    (isPathAllowed_policy FSAdapter.defaultAllowedPaths "src/App.tsx")))) Hin).
Defined.

(** *** Prefix matching against exact-file entries *)

Lemma split_single_app (sep : ascii) (entry extra : string) :
  Js.split sep entry = [entry] ->
  Js.split sep (entry +:+ extra) =
  match Js.split sep extra with
  | seg :: rest => (entry +:+ seg) :: rest
  | [] => [entry]
  end.
Proof.
  induction entry as [|c entry IH]; intros Hone.
  - rewrite append_nil_l. pose proof (split_nonempty sep extra) as Hne.
    destruct (Js.split sep extra); [contradiction | reflexivity].
  - rewrite append_cons. cbn [Js.split] in *.
    destruct (Ascii.eqb c sep); [discriminate|].
    pose proof (split_nonempty sep entry) as Hne.
    destruct (Js.split sep entry) as [|seg0 rest0] eqn:Hsplit; [contradiction|].
    injection Hone as -> ->. rewrite (IH eq_refl).
    pose proof (split_nonempty sep extra) as Hne'.
    destruct (Js.split sep extra); [contradiction|].
    rewrite append_cons. reflexivity.
Qed.

Lemma normalizeSegments_no_traversal (allowAboveRoot : bool) (segs res : list string) :
  existsb (fun seg => Js.includes seg "..") segs = false ->
  Path.normalizeSegments allowAboveRoot segs res = rev res ++ List.filter Path.keptSegment segs.
Proof.
  revert res. induction segs as [|seg segs IH]; intros res Hno.
  - cbn. rewrite app_nil_r. reflexivity.
  - cbn [existsb] in Hno. apply orb_false_iff in Hno as [Hseg Hrest].
    cbn [Path.normalizeSegments List.filter]. unfold Path.keptSegment at 1.
    destruct (String.eqb seg EmptyString || String.eqb seg ".") eqn:Hskip; cbn [negb].
    + apply IH. assumption.
    + destruct (String.eqb_spec seg "..") as [->|_]; [discriminate Hseg|].
      rewrite IH by assumption. cbn [rev]. rewrite <- app_assoc. reflexivity.
Qed.

Lemma startsWith_dot_app_sep (a r : string) :
  Js.startsWith (a +:+ "/" +:+ r) "." = Js.startsWith a ".".
Proof. destruct a; reflexivity. Qed.

Lemma includes_dotdot_app_sep (a r : string) :
  Js.includes (a +:+ "/" +:+ r) ".." = Js.includes a ".." || Js.includes r "..".
Proof.
  induction a as [|c a IH].
  - change (EmptyString +:+ "/" +:+ r) with (String "/" r).
    rewrite includes_dotdot_cons. reflexivity.
  - change (String c a +:+ "/" +:+ r) with (String c (a +:+ "/" +:+ r)).
    rewrite !includes_dotdot_cons, IH, startsWith_dot_app_sep, orb_assoc. reflexivity.
Qed.

Lemma includes_dotdot_join (l : list string) :
  Js.includes (Js.join "/" l) ".." = existsb (fun seg => Js.includes seg "..") l.
Proof.
  induction l as [|x l IH]; [reflexivity|].
  destruct l as [|y l].
  - cbn. rewrite orb_false_r. reflexivity.
  - change (Js.join "/" (x :: y :: l)) with (x +:+ "/" +:+ Js.join "/" (y :: l)).
    rewrite includes_dotdot_app_sep, IH. reflexivity.
Qed.

Lemma existsb_filter_false {A : Type} (f : A -> bool) (P : A -> bool) (l : list A) :
  existsb f l = false -> existsb f (List.filter P l) = false.
Proof.
  induction l as [|x l IH]; [reflexivity|]. cbn [existsb List.filter].
  intros H. apply orb_false_iff in H as [Hx Hl].
  destruct (P x); cbn [existsb]; [rewrite Hx|]; auto.
Qed.

Lemma startsWith_app (a t : string) : Js.startsWith (a +:+ t) a = true.
Proof. apply startsWith_iff. exists t. reflexivity. Qed.

Lemma join_head (x : string) (l : list string) :
  exists t, Js.join "/" (x :: l) = x +:+ t.
Proof.
  destruct l as [|y l].
  - exists EmptyString. rewrite append_nil_r. reflexivity.
  - eexists. reflexivity.
Qed.

(** The normal form of [entry ++ extra] when [entry] is one path segment
    and no two dots are adjacent. *)
Lemma normalize_single_segment_app (c : ascii) (entry extra : string) :
  Js.split Path.sep (String c entry) = [String c entry] ->
  String c entry <> "." ->
  Js.includes (String c entry +:+ extra) ".." = false ->
  exists t, Path.normalize (String c entry +:+ extra) = String c entry +:+ t
            /\ Js.includes (String c entry +:+ t) ".." = false.
Proof.
  intros Hone Hdot Hno.
  assert (Hc : Ascii.eqb c Path.sep = false).
  { cbn [Js.split] in Hone. destruct (Ascii.eqb c Path.sep); [discriminate | reflexivity]. }
  pose proof Hno as Hsegs. rewrite includes_dotdot_split, (split_single_app _ _ _ Hone) in Hsegs.
  pose proof (split_nonempty Path.sep extra) as Hne.
  unfold Path.normalize.
  change (String c entry +:+ extra) with (String c (entry +:+ extra)) at 1.
  cbn [String.eqb].
  assert (Habs : Path.isAbsolute (String c entry +:+ extra) = false).
  { unfold Path.isAbsolute. rewrite append_cons. cbn [Js.startsWith].
    rewrite Ascii.eqb_sym. unfold Path.sep in Hc. rewrite Hc. reflexivity. }
  rewrite Habs. cbn [negb].
  rewrite (split_single_app _ _ _ Hone).
  destruct (Js.split Path.sep extra) as [|seg rest]; [contradiction|].
  cbn [existsb] in Hsegs. apply orb_false_iff in Hsegs as [Hseg Hrest].
  set (first := String c entry +:+ seg) in *.
  assert (Hkeep : String.eqb first EmptyString || String.eqb first "." = false).
  { subst first. apply orb_false_iff. split; [reflexivity|].
    destruct (String.eqb_spec (String c entry +:+ seg) ".") as [Heq|]; [|reflexivity].
    exfalso. apply Hdot. cbn in Heq. injection Heq as -> Heq.
    destruct entry; [reflexivity | discriminate]. }
  cbn [Path.normalizeSegments]. rewrite Hkeep.
  destruct (String.eqb_spec first "..") as [Heq|_].
  { rewrite Heq in Hseg. discriminate Hseg. }
  rewrite normalizeSegments_no_traversal by assumption. cbn [rev app].
  destruct (join_head first (List.filter Path.keptSegment rest)) as [t Ht].
  assert (Hres : Js.includes (Js.join "/" (first :: List.filter Path.keptSegment rest)) ".." = false).
  { rewrite includes_dotdot_join. cbn [existsb]. rewrite Hseg.
    apply existsb_filter_false. assumption. }
  assert (Hnonempty : String.eqb (Js.join "/" (first :: List.filter Path.keptSegment rest)) EmptyString = false).
  { rewrite Ht. subst first. reflexivity. }
  rewrite Hnonempty, append_nil_l, Ht. rewrite Ht in Hres. subst first.
  rewrite !app_assoc_string in *.
  destruct (Path.endsWithSep _).
  - exists (seg +:+ t +:+ "/"). split; [reflexivity|].
    replace (String c entry +:+ seg +:+ t +:+ "/")
      with ((String c entry +:+ seg +:+ t) +:+ "/" +:+ EmptyString)
      by (rewrite !app_assoc_string; reflexivity).
    rewrite includes_dotdot_app_sep, Hres. reflexivity.
  - exists (seg +:+ t). rewrite append_nil_r. split; [reflexivity | exact Hres].
Qed.

(** C9, as amended. The allow-list is matched by string prefix: whatever
    is appended to an entry that is a single path segment (an exact file
    name such as [package.json]), the result is accepted, provided it has
    no two adjacent dots anywhere (which is what the guard tests, and is
    more than having no [..] segment). *)
Theorem isPathAllowed_exact_file_prefix
    (allowedPaths : list string) (entry extra : string) :
  In entry allowedPaths ->
  entry <> EmptyString ->
  entry <> "." ->
  Js.split Path.sep entry = [entry] ->
  Js.includes (entry +:+ extra) ".." = false ->
  FSAdapter.isPathAllowed allowedPaths (entry +:+ extra) = true.
Proof.
  intros Hin Hne Hdot Hone Hno.
  destruct entry as [|c entry]; [contradiction|].
  destruct (normalize_single_segment_app c entry extra Hone Hdot Hno) as [t [Hnorm Hfree]].
  apply (isPathAllowed_intro _ _ (String c entry)); rewrite ?Hnorm.
  - exact Hfree.
  - rewrite append_cons. cbn [Js.startsWith]. cbn [Js.split] in Hone.
    rewrite Ascii.eqb_sym. fold Path.sep.
    destruct (Ascii.eqb c Path.sep); [discriminate | reflexivity].
  - exact Hin.
  - apply startsWith_app.
Qed.

Lemma isPathAllowed_exact_file_prefix_witness :
  FSAdapter.isPathAllowed FSAdapter.defaultAllowedPaths ("package.json" +:+ "X") = true.
Proof.
  apply isPathAllowed_exact_file_prefix.
  - vm_compute. tauto.
  - discriminate.
  - discriminate.
  - reflexivity.
  - reflexivity.
Defined.

(** C9, as stated, fails: [package.json..x] extends the entry
    [package.json], has no [..] segment and is relative, yet the guard
    rejects it, because it looks for two adjacent dots, not for a [..]
    segment. *)
Lemma isPathAllowed_exact_file_prefix_counterexample :
  In "package.json" FSAdapter.defaultAllowedPaths
  /\ Path.hasTraversalSegment ("package.json" +:+ "..x") = false
  /\ Js.startsWith ("package.json" +:+ "..x") "/" = false
  /\ FSAdapter.isPathAllowed FSAdapter.defaultAllowedPaths ("package.json" +:+ "..x") = false.
Proof.
  split; [vm_compute; tauto|]. repeat split; reflexivity.
Qed.

(** ** Cycle detection *)

Section CycleDetection.

Variable steps : list PlanStep.

Local Abbreviation edge := (PlanGraph.dependsOn steps).
Local Abbreviation Inv := (PlanGraph.Inv steps).
Local Abbreviation callSpec := (PlanGraph.callSpec steps).

(** With unique step ids the graph is the expected one: [x] depends on
    [d] when some step with id [x] lists [d]. *)
Lemma dependsOn_unique_ids (x d : string) :
  NoDup (map id steps) ->
  PlanGraph.dependsOn steps x d <->
  exists step, In step steps /\ id step = x /\ In d (dependencies step).
Proof.
  intros Hnodup. unfold PlanGraph.dependsOn, PlannerService.findStep. split.
  - intros [step [Hfind Hd]]. apply find_some in Hfind as [Hin Heq].
    apply String.eqb_eq in Heq. eauto.
  - intros [step [Hin [Hid Hd]]]. exists step. split; [|assumption].
    clear Hd. induction steps as [|s l IH]; [contradiction|].
    cbn [map] in Hnodup. apply NoDup_cons in Hnodup as [Hnot Hnodup].
    cbn [find]. destruct Hin as [->|Hin].
    + rewrite Hid, String.eqb_refl. reflexivity.
    + destruct (String.eqb_spec (id s) x) as [Heq|_]; [|auto].
      exfalso. apply Hnot. rewrite list_elem_of_In, Heq, <- Hid. apply in_map. assumption.
Qed.

Lemma Inv_empty : Inv ∅ ∅.
Proof. split; [set_solver|]. split; intros; set_solver. Qed.

Lemma Inv_closed (V S : gset string) (x y : string) :
  Inv V S -> x ∈ V -> x ∉ S -> rtc edge x y -> (y ∈ V) /\ (y ∉ S).
Proof.
  intros HI HV HS Hpath. induction Hpath as [x|x z y Hxz _ IH]; [auto|].
  destruct HI as [? [Hclosed ?]].
  destruct (Hclosed x z HV HS Hxz). apply IH; assumption.
Qed.

Lemma Inv_start (V S : gset string) (x : string) :
  Inv V S -> x ∉ V -> Inv (V ∪ {[x]}) (S ∪ {[x]}).
Proof.
  intros [Hsub [Hclosed Hacyc]] Hx. split; [set_solver|]. split.
  - intros y d Hy HyS Hedge.
    destruct (Hclosed y d) as [HdV HdS]; [set_solver | set_solver | assumption|].
    split; set_solver.
  - intros y Hy HyS. apply Hacyc; set_solver.
Qed.

Lemma Inv_finish (V S : gset string) (x : string) :
  Inv V (S ∪ {[x]}) -> x ∈ V -> x ∉ S ->
  (forall d, edge x d -> (d ∈ V) /\ (d ∉ S ∪ {[x]})) ->
  Inv V S.
Proof.
  intros HI HxV HxS Hdeps. pose proof HI as [Hsub [Hclosed Hacyc]].
  split; [set_solver|]. split.
  - intros y d HyV HyS Hedge. destruct (decide (y = x)) as [->|Hne].
    + destruct (Hdeps d Hedge). split; set_solver.
    + destruct (Hclosed y d); [assumption | set_solver | assumption|]. split; set_solver.
  - intros y HyV HyS Hcycle. destruct (decide (y = x)) as [->|Hne].
    + assert (Hfirst : exists d, edge x d /\ rtc edge d x).
      { inversion Hcycle as [? ? Hstep|? d ? Hstep Hrest]; subst.
        - exists x. split; [assumption | apply rtc_refl].
        - exists d. split; [assumption | apply tc_rtc; assumption]. }
      destruct Hfirst as [d [Hstep Hback]].
      destruct (Hdeps d Hstep) as [HdV HdS].
      destruct (Inv_closed _ _ _ _ HI HdV HdS Hback). set_solver.
    + apply (Hacyc y); [assumption | set_solver | assumption].
Qed.

Lemma depsLoop_spec recurse (deps : list string) :
  callSpec recurse ->
  forall V S b V' S',
    Inv V S ->
    (forall d y, In d deps -> y ∈ S -> tc edge y d) ->
    PlannerService.depsLoop recurse deps (V, S) = Some (b, (V', S')) ->
    if b then PlanGraph.cyclic steps
    else S' = S /\ (V ⊆ V') /\ (forall d, In d deps -> (d ∈ V') /\ (d ∉ S)) /\ Inv V' S.
Proof.
  intros Hrec. induction deps as [|depId deps IH]; intros V S b V' S' HI Hreach Hrun.
  - cbn in Hrun. injection Hrun as <- <- <-.
    split; [reflexivity|]. split; [set_solver|]. split; [contradiction | assumption].
  - cbn [PlannerService.depsLoop] in Hrun.
    destruct (recurse depId (V, S)) as [[[|] [V1 S1]]|] eqn:Hcall; [| |discriminate].
    + injection Hrun as <- <- <-.
      apply (Hrec depId V S true V1 S1 HI); [|assumption].
      intros y Hy. apply (Hreach depId y); [left; reflexivity | assumption].
    + pose proof (Hrec depId V S false V1 S1 HI) as Hpost. cbn in Hpost.
      destruct Hpost as [-> [Hmono [HdV [HdS HI1]]]]; [|assumption|].
      { intros y Hy. apply (Hreach depId y); [left; reflexivity | assumption]. }
      specialize (IH V1 S b V' S' HI1).
      destruct b.
      * apply IH; [|assumption]. intros d y Hd. apply Hreach. right. assumption.
      * destruct IH as [-> [Hmono' [Hall HI']]]; [|assumption|].
        { intros d y Hd. apply Hreach. right. assumption. }
        split; [reflexivity|]. split; [set_solver|]. split; [|assumption].
        intros d [<-|Hd]; [split; [set_solver | assumption] | apply Hall; assumption].
Qed.

Lemma hasCycle_spec (fuel : nat) : callSpec (PlannerService.hasCycle fuel steps).
Proof.
  induction fuel as [|fuel IH]; intros x V S b V' S' HI Hreach Hrun; [discriminate|].
  cbn [PlannerService.hasCycle] in Hrun.
  destruct (decide (x ∈ S)) as [HxS|HxS].
  { injection Hrun as <- <- <-. exists x. apply Hreach. assumption. }
  destruct (decide (x ∈ V)) as [HxV|HxV].
  { injection Hrun as <- <- <-. repeat (split; [solve [auto; set_solver]|]). assumption. }
  set (deps := match PlannerService.findStep steps x with
               | Some step => dependencies step
               | None => []
               end) in Hrun.
  assert (Hdeps : forall d, edge x d <-> In d deps).
  { intros d. subst deps. unfold PlanGraph.dependsOn.
    destruct (PlannerService.findStep steps x) as [step|].
    - split; [intros [s [Hs Hd]]; injection Hs as <-; assumption | eauto].
    - split; [intros [s [Hs _]]; discriminate | contradiction]. }
  pose proof (depsLoop_spec _ deps IH (V ∪ {[x]}) (S ∪ {[x]})) as Hloop.
  destruct (PlannerService.depsLoop _ deps _) as [[[|] [V2 S2]]|] eqn:Hrunloop;
    [| |discriminate].
  - injection Hrun as <- <- <-.
    apply (Hloop true V2 S2); [apply Inv_start; assumption | | reflexivity].
    intros d y Hd Hy. apply Hdeps in Hd.
    apply elem_of_union in Hy as [Hy|Hy].
    + eapply tc_r; [apply Hreach; assumption | assumption].
    + apply elem_of_singleton in Hy as ->. apply tc_once. assumption.
  - injection Hrun as <- <- <-.
    destruct (Hloop false V2 S2) as [-> [Hmono [Hall HI2]]];
      [apply Inv_start; assumption | | reflexivity |].
    { intros d y Hd Hy. apply Hdeps in Hd.
      apply elem_of_union in Hy as [Hy|Hy].
      + eapply tc_r; [apply Hreach; assumption | assumption].
      + apply elem_of_singleton in Hy as ->. apply tc_once. assumption. }
    split; [set_solver|]. split; [set_solver|]. split; [set_solver|]. split; [assumption|].
    apply (Inv_finish V2 S x); [assumption | set_solver | assumption |].
    intros d Hd. apply Hall, Hdeps. assumption.
Qed.

End CycleDetection.

(** *** Termination of the traversal *)

Section CycleDetectionTerminates.

Variable steps : list PlanStep.

Local Abbreviation returns := (PlanGraph.returns steps).

Lemma findStep_In (x : string) (step : PlanStep) :
  PlannerService.findStep steps x = Some step -> In step steps /\ id step = x.
Proof.
  intros Hfind. apply find_some in Hfind as [Hin Heq].
  apply String.eqb_eq in Heq. auto.
Qed.

Lemma id_in_nodes (step : PlanStep) :
  In step steps -> id step ∈ PlannerService.nodes steps.
Proof.
  intros Hin. unfold PlannerService.nodes.
  rewrite elem_of_list_to_set, list_elem_of_In, in_app_iff. left. apply in_map. assumption.
Qed.

Lemma dependency_in_nodes (step : PlanStep) (d : string) :
  In step steps -> In d (dependencies step) -> d ∈ PlannerService.nodes steps.
Proof.
  intros Hin Hd. unfold PlannerService.nodes.
  rewrite elem_of_list_to_set, list_elem_of_In, in_app_iff. right.
  apply in_flat_map. eauto.
Qed.

Lemma depsLoop_returns (fuel : nat) recurse (deps : list string) :
  returns fuel recurse ->
  forall V S,
    (forall d, In d deps -> d ∈ PlannerService.nodes steps) ->
    size (PlannerService.nodes steps ∖ V) < fuel ->
    exists b V' S',
      PlannerService.depsLoop recurse deps (V, S) = Some (b, (V', S')) /\ V ⊆ V'.
Proof.
  intros Hrec. induction deps as [|depId deps IH]; intros V S Hin Hsize.
  - exists false, V, S. split; [reflexivity | set_solver].
  - cbn [PlannerService.depsLoop].
    destruct (Hrec depId V S) as [b [V1 [S1 [Hcall Hmono]]]];
      [apply Hin; left; reflexivity | assumption|].
    rewrite Hcall. destruct b.
    + exists true, V1, S1. auto.
    + destruct (IH V1 S1) as [b [V' [S' [Hrun Hmono']]]].
      * intros d Hd. apply Hin. right. assumption.
      * eapply Nat.le_lt_trans; [|exact Hsize]. apply subseteq_size. set_solver.
      * exists b, V', S'. split; [assumption | set_solver].
Qed.

Lemma hasCycle_returns (fuel : nat) : returns fuel (PlannerService.hasCycle fuel steps).
Proof.
  induction fuel as [|fuel IH]; intros x V S Hx Hsize; [lia|].
  cbn [PlannerService.hasCycle].
  destruct (decide (x ∈ S)); [exists true, V, S; split; [reflexivity | set_solver]|].
  destruct (decide (x ∈ V)) as [|HxV]; [exists false, V, S; split; [reflexivity | set_solver]|].
  set (deps := match PlannerService.findStep steps x with
               | Some step => dependencies step
               | None => []
               end).
  destruct (depsLoop_returns fuel _ deps IH (V ∪ {[x]}) (S ∪ {[x]}))
    as [b [V' [S' [Hrun Hmono]]]].
  - subst deps. destruct (PlannerService.findStep steps x) as [step|] eqn:Hfind; [|contradiction].
    intros d Hd. apply findStep_In in Hfind as [Hin _].
    apply (dependency_in_nodes step); assumption.
  - assert (Hlt : size (PlannerService.nodes steps ∖ (V ∪ {[x]}))
                  < size (PlannerService.nodes steps ∖ V)).
    { apply subset_size. set_solver. }
    lia.
  - rewrite Hrun. destruct b.
    + exists true, V', S'. split; [reflexivity | set_solver].
    + exists false, V', (S' ∖ {[x]}). split; [reflexivity | set_solver].
Qed.

End CycleDetectionTerminates.

(** *** [hasCircularDependencies] decides cyclicity *)

Lemma stepsLoop_spec (steps : list PlanStep) (fuel : nat) :
  size (PlannerService.nodes steps) < fuel ->
  forall todo V,
    (forall step, In step todo -> In step steps) ->
    PlanGraph.Inv steps V ∅ ->
    exists b, PlannerService.stepsLoop fuel steps todo (V, ∅) = Some b
              /\ if b then PlanGraph.cyclic steps
                 else exists V', V ⊆ V' /\ PlanGraph.Inv steps V' ∅
                                 /\ forall step, In step todo -> id step ∈ V'.
Proof.
  intros Hfuel. induction todo as [|step todo IH]; intros V Hsub HI.
  - exists false. split; [reflexivity|]. exists V. split; [set_solver|].
    split; [assumption | contradiction].
  - cbn [PlannerService.stepsLoop].
    destruct (hasCycle_returns steps fuel (id step) V ∅) as [b [V1 [S1 [Hcall Hmono]]]].
    { apply id_in_nodes, Hsub. left. reflexivity. }
    { eapply Nat.le_lt_trans; [|exact Hfuel]. apply subseteq_size. set_solver. }
    rewrite Hcall.
    pose proof (hasCycle_spec steps fuel (id step) V ∅ b V1 S1 HI) as Hpost.
    destruct b.
    + exists true. split; [reflexivity|]. apply Hpost; [set_solver | assumption].
    + destruct Hpost as [-> [_ [Hmem [_ HI1]]]]; [set_solver | assumption|].
      destruct (IH V1) as [b [Hrun Hres]]; [intros; apply Hsub; right; assumption | assumption|].
      exists b. split; [assumption|]. destruct b; [assumption|].
      destruct Hres as [V' [Hmono' [HI' Hall]]]. exists V'.
      split; [set_solver|]. split; [assumption|].
      intros s [<-|Hs]; [set_solver | apply Hall; assumption].
Qed.

(** Whatever room the stack has, an answer of the loop is right. *)
Lemma stepsLoop_sound (steps : list PlanStep) (fuel : nat) :
  forall todo V b,
    PlanGraph.Inv steps V ∅ ->
    PlannerService.stepsLoop fuel steps todo (V, ∅) = Some b ->
    if b then PlanGraph.cyclic steps
    else exists V', V ⊆ V' /\ PlanGraph.Inv steps V' ∅
                    /\ forall step, In step todo -> id step ∈ V'.
Proof.
  induction todo as [|step todo IH]; intros V b HI Hrun.
  - injection Hrun as <-. exists V. split; [set_solver|]. split; [assumption | contradiction].
  - cbn [PlannerService.stepsLoop] in Hrun.
    destruct (PlannerService.hasCycle fuel steps (id step) (V, ∅))
      as [[b1 [V1 S1]]|] eqn:Hcall; [|discriminate].
    pose proof (hasCycle_spec steps fuel (id step) V ∅ b1 V1 S1 HI) as Hpost.
    destruct b1.
    + injection Hrun as <-. apply Hpost; [set_solver | assumption].
    + destruct Hpost as [-> [Hmono [Hmem [_ HI1]]]]; [set_solver | assumption|].
      specialize (IH V1 b HI1 Hrun). destruct b; [assumption|].
      destruct IH as [V' [Hmono' [HI' Hall]]]. exists V'.
      split; [set_solver|]. split; [assumption|].
      intros s0 [<-|Hs]; [set_solver | apply Hall; assumption].
Qed.

(** Whatever room the stack has, when [hasCircularDependencies] returns
    it returns whether the graph has a cycle. *)
Lemma hasCircularDependencies_sound (stackDepth : nat) (steps : list PlanStep) (b : bool) :
  PlannerService.hasCircularDependencies stackDepth steps = Some b ->
  b = true <-> PlanGraph.cyclic steps.
Proof.
  unfold PlannerService.hasCircularDependencies. intros Hrun.
  pose proof (stepsLoop_sound steps stackDepth steps ∅ b (Inv_empty steps) Hrun) as Hres.
  destruct b.
  - split; [intros _; assumption | reflexivity].
  - split; [discriminate|]. intros [x Hcycle]. exfalso.
    destruct Hres as [V' [_ [[_ [_ Hacyc]] Hall]]].
    apply (Hacyc x); [|set_solver | assumption].
    assert (Hout : exists d, PlanGraph.dependsOn steps x d)
      by (inversion Hcycle; eauto).
    destruct Hout as [d [step [Hfind _]]].
    apply findStep_In in Hfind as [Hin <-]. apply Hall. assumption.
Qed.

(** With room on the stack for more nested calls than there are
    identifiers, the traversal returns, and returns whether the graph
    has a cycle. *)
Theorem hasCircularDependencies_correct (stackDepth : nat) (steps : list PlanStep) :
  size (PlannerService.nodes steps) < stackDepth ->
  exists b, PlannerService.hasCircularDependencies stackDepth steps = Some b
            /\ (b = true <-> PlanGraph.cyclic steps).
Proof.
  intros Hdepth.
  destruct (stepsLoop_spec steps stackDepth Hdepth
              steps ∅ (fun _ H => H) (Inv_empty steps)) as [b [Hrun _]].
  exists b. split; [exact Hrun|]. apply (hasCircularDependencies_sound stackDepth). exact Hrun.
Qed.

(** ** Plan validation *)

Lemma flat_map_nonempty {A B : Type} (f : A -> list B) (l : list A) :
  flat_map f l <> [] <-> exists x, In x l /\ f x <> [].
Proof.
  induction l as [|a l IH]; cbn [flat_map].
  - split; [congruence | intros [x [[] _]]].
  - destruct (f a) as [|b bs] eqn:Hfa.
    + cbn [app]. rewrite IH. split.
      * intros [x [Hin Hx]]. exists x. split; [right; assumption | assumption].
      * intros [x [[<-|Hin] Hx]]; [congruence | eauto].
    + split; [|discriminate]. intros _. exists a. split; [left; reflexivity | congruence].
Qed.

Lemma truthy_false_iff (o : option string) :
  Js.truthy o = false <-> ChangeSpec.absentOrEmpty o.
Proof.
  unfold Js.truthy, ChangeSpec.absentOrEmpty. destruct o as [s|].
  - destruct (String.eqb_spec s EmptyString) as [->|Hne]; cbn.
    + split; [right; reflexivity | reflexivity].
    + split; [discriminate | intros [H|H]; [discriminate | congruence]].
  - split; [left; reflexivity | reflexivity].
Qed.

Lemma failsPrecondition_ext (m1 m2 : option string -> Prop)
    (allowedPaths : list string) (fs : gmap string string) (change : FileChange) :
  (forall o, m1 o <-> m2 o) ->
  ChangeSpec.failsPrecondition m1 allowedPaths fs change <->
  ChangeSpec.failsPrecondition m2 allowedPaths fs change.
Proof.
  intros H. unfold ChangeSpec.failsPrecondition.
  rewrite (H (newPath change)), (H (diff change)), (H (content change)). reflexivity.
Qed.

Lemma validateFileChange_rejects_iff
    (allowedPaths : list string) (fs : gmap string string) (change : FileChange) :
  valid (PlannerService.validateFileChange allowedPaths fs change) = false <->
  ChangeSpec.failsPrecondition ChangeSpec.absentOrEmpty allowedPaths fs change.
Proof.
  rewrite <- (failsPrecondition_ext (fun o => Js.truthy o = false))
    by (intros o; apply truthy_false_iff).
  unfold PlannerService.validateFileChange, ChangeSpec.failsPrecondition.
  destruct (FSAdapter.isPathAllowed allowedPaths (file change)); cbn [negb];
    [|cbn; tauto].
  destruct (op change), (FSAdapter.exists_ allowedPaths fs (file change)),
    (applyMethod change), (Js.truthy (newPath change)), (Js.truthy (diff change)),
    (Js.truthy (content change)), (insertAtLine change);
    cbn; intuition congruence.
Qed.

Lemma fileErrors_nonempty (allowedPaths : list string) (heap : nat -> FileChange)
    (fs : gmap string string) (changes : list nat) :
  PlannerService.fileErrors allowedPaths heap fs changes <> [] <->
  exists l, In l changes
            /\ ChangeSpec.failsPrecondition ChangeSpec.absentOrEmpty allowedPaths fs (heap l).
Proof.
  unfold PlannerService.fileErrors. rewrite flat_map_nonempty.
  split; intros [l [Hin H]]; exists l; (split; [assumption|]).
  - apply validateFileChange_rejects_iff.
    destruct (valid _); [contradiction | reflexivity].
  - apply validateFileChange_rejects_iff in H. rewrite H. discriminate.
Qed.

Lemma dependencyErrors_nonempty (steps : list PlanStep) :
  PlannerService.dependencyErrors steps <> [] <-> PlanGraph.dangling steps.
Proof.
  unfold PlannerService.dependencyErrors, PlanGraph.dangling.
  rewrite flat_map_nonempty. split.
  - intros [step [Hin H]]. apply flat_map_nonempty in H as [depId [Hd H]].
    exists step, depId. split; [assumption|]. split; [assumption|].
    destruct (decide _) as [|Hnot]; [contradiction|].
    rewrite elem_of_list_to_set, list_elem_of_In in Hnot. assumption.
  - intros [step [depId [Hin [Hd Hnot]]]]. exists step. split; [assumption|].
    apply flat_map_nonempty. exists depId. split; [assumption|].
    rewrite decide_False; [discriminate|].
    rewrite elem_of_list_to_set, list_elem_of_In. assumption.
Qed.

Lemma cycleABC_cyclic : PlanGraph.cyclic Samples.cycleABC.
Proof.
  exists "A".
  assert (Hedge : forall x d s, PlannerService.findStep Samples.cycleABC x = Some s ->
                                In d (dependencies s) -> PlanGraph.dependsOn Samples.cycleABC x d)
    by (intros x d s Hs Hd; exists s; auto).
  apply (tc_l _ "A" "B" "A"); [eapply Hedge; [reflexivity | left; reflexivity]|].
  apply (tc_l _ "B" "C" "A"); [eapply Hedge; [reflexivity | left; reflexivity]|].
  apply tc_once. eapply Hedge; [reflexivity | left; reflexivity].
Defined.

(** C4, as amended. [validatePlan] reports the plan invalid exactly
    when a step has a dangling dependency, the dependency graph has a
    cycle, a change fails a precondition, where a payload field counts
    as missing when it is absent or the empty string, or the cycle
    detection exhausts the call stack. The last cannot happen when the
    stack has room for more nested calls than the steps hold
    identifiers; when it happens, the internal error is the only error
    reported. *)
Theorem validatePlan_invalid_iff (allowedPaths : list string) (stackDepth : nat)
    (heap : nat -> FileChange) (fs : gmap string string)
    (response : PlannerService.AIResponse) :
  (fst (PlannerService.validatePlan allowedPaths stackDepth heap fs response) = false <->
   PlanGraph.dangling (PlannerService.steps response)
   \/ PlanGraph.cyclic (PlannerService.steps response)
   \/ (exists l, In l (PlannerService.changes response)
                 /\ ChangeSpec.failsPrecondition ChangeSpec.absentOrEmpty
                      allowedPaths fs (heap l))
   \/ PlannerService.hasCircularDependencies stackDepth (PlannerService.steps response)
      = None)
  /\ (size (PlannerService.nodes (PlannerService.steps response)) < stackDepth ->
      PlannerService.hasCircularDependencies stackDepth (PlannerService.steps response)
      <> None)
  /\ (PlannerService.hasCircularDependencies stackDepth (PlannerService.steps response)
      = None ->
      snd (PlannerService.validatePlan allowedPaths stackDepth heap fs response)
      = ["Internal validation error"]).
Proof.
  split; [|split].
  - unfold PlannerService.validatePlan.
    destruct (PlannerService.hasCircularDependencies stackDepth
                (PlannerService.steps response)) as [circular|] eqn:Hrun;
      [|cbn; split; [intros _; right; right; right; reflexivity | reflexivity]].
    pose proof (hasCircularDependencies_sound _ _ _ Hrun) as Hcirc.
    cbn [fst].
    rewrite <- fileErrors_nonempty, <- dependencyErrors_nonempty, <- Hcirc.
    destruct (PlannerService.fileErrors _ _ _ _) as [|e1 l1];
      [|cbn; split; [intros _; right; right; left; discriminate | reflexivity]].
    destruct (PlannerService.dependencyErrors _) as [|e2 l2];
      [|cbn; split; [intros _; left; discriminate | reflexivity]].
    destruct circular; cbn; [intuition congruence|].
    split; [discriminate | intros [H|[H|[H|H]]]; congruence].
  - intros Hdepth.
    destruct (hasCircularDependencies_correct stackDepth (PlannerService.steps response)
                Hdepth) as [b [-> _]]. discriminate.
  - intros Hthrows. unfold PlannerService.validatePlan. rewrite Hthrows. reflexivity.
Qed.

Lemma validatePlan_invalid_iff_witness :
  fst (PlannerService.validatePlan FSAdapter.defaultAllowedPaths Samples.callStack
         (fun _ => Samples.createEmptyFile) ∅ Samples.cyclePlan) = false.
Proof.
  apply (proj1 (validatePlan_invalid_iff FSAdapter.defaultAllowedPaths Samples.callStack
                  (fun _ => Samples.createEmptyFile) ∅ Samples.cyclePlan)).
  right. left. exact cycleABC_cyclic.
Defined.

Lemma not_cyclic_nil : ~ PlanGraph.cyclic [].
Proof.
  intros [x Hcycle].
  assert (Hout : exists d, PlanGraph.dependsOn [] x d) by (inversion Hcycle; eauto).
  destruct Hout as [d [step [Hfind _]]]. discriminate Hfind.
Qed.

(** C4, as stated, fails: a plan whose only change creates an empty file
    (content present, and empty) is reported invalid although no step
    dependency dangles, there is no cycle, and no required field of the
    change is absent. *)
Lemma validatePlan_invalid_iff_counterexample :
  PlannerService.validatePlan FSAdapter.defaultAllowedPaths Samples.callStack
    (fun _ => Samples.createEmptyFile) ∅ Samples.emptyFilePlan
  = (false, ["File src/New.ts: Content required for replaceFile apply method"])
  /\ PlannerService.hasCircularDependencies Samples.callStack
       (PlannerService.steps Samples.emptyFilePlan) = Some false
  /\ ~ (PlanGraph.dangling (PlannerService.steps Samples.emptyFilePlan)
        \/ PlanGraph.cyclic (PlannerService.steps Samples.emptyFilePlan)
        \/ exists l, In l (PlannerService.changes Samples.emptyFilePlan)
                     /\ ChangeSpec.failsPrecondition ChangeSpec.absent
                          FSAdapter.defaultAllowedPaths ∅ Samples.createEmptyFile).
Proof.
  split; [vm_compute; reflexivity|]. split; [reflexivity|].
  intros [[step [depId [[] _]]]|[Hcycle|[l [_ Hfails]]]].
  - exact (not_cyclic_nil Hcycle).
  - unfold ChangeSpec.failsPrecondition, ChangeSpec.absent in Hfails.
    assert (Hallowed : FSAdapter.isPathAllowed FSAdapter.defaultAllowedPaths "src/New.ts" = true)
      by reflexivity.
    assert (Hexists : FSAdapter.exists_ FSAdapter.defaultAllowedPaths ∅ "src/New.ts" = false)
      by reflexivity.
    cbn [file op applyMethod content newPath diff insertAtLine Samples.createEmptyFile] in Hfails.
    rewrite Hallowed, Hexists in Hfails.
    intuition discriminate.
Qed.

Lemma count_occ_snoc_fresh (l : list string) (m : string) :
  (forall e, In e l -> e <> m) -> count_occ string_dec (l ++ [m]) m = 1.
Proof.
  intros Hfresh. rewrite count_occ_app.
  rewrite (proj1 (count_occ_not_In string_dec l m)).
  - cbn. destruct (string_dec m m); [reflexivity | contradiction].
  - intros Hin. exact (Hfresh m Hin eq_refl).
Qed.

Lemma fileErrors_not_circular (allowedPaths : list string) (heap : nat -> FileChange)
    (fs : gmap string string) (changes : list nat) (e : string) :
  In e (PlannerService.fileErrors allowedPaths heap fs changes) ->
  e <> PlannerService.circularMessage.
Proof.
  unfold PlannerService.fileErrors. rewrite in_flat_map. intros [l [_ Hin]].
  destruct (valid _); [contradiction|].
  destruct Hin as [<-|[]]. discriminate.
Qed.

Lemma dependencyErrors_not_circular (steps : list PlanStep) (e : string) :
  In e (PlannerService.dependencyErrors steps) -> e <> PlannerService.circularMessage.
Proof.
  unfold PlannerService.dependencyErrors. rewrite in_flat_map. intros [step [_ Hin]].
  apply in_flat_map in Hin as [depId [_ Hin]].
  destruct (decide _); [contradiction|].
  destruct Hin as [<-|[]]. discriminate.
Qed.

(** C5, as amended. On every plan whose dependency graph has a cycle,
    whatever its size, [validatePlan] reports the plan invalid. When the
    steps hold fewer identifiers than the call stack has room for nested
    calls, it lists the circular-dependency error exactly once; in any
    case it lists that error exactly once or reports the internal error
    alone. *)
Theorem validatePlan_cycle_reported (allowedPaths : list string) (stackDepth : nat)
    (heap : nat -> FileChange) (fs : gmap string string)
    (response : PlannerService.AIResponse) :
  PlanGraph.cyclic (PlannerService.steps response) ->
  exists errors,
    PlannerService.validatePlan allowedPaths stackDepth heap fs response = (false, errors)
    /\ (count_occ string_dec errors PlannerService.circularMessage = 1
        \/ errors = ["Internal validation error"])
    /\ (size (PlannerService.nodes (PlannerService.steps response)) < stackDepth ->
        count_occ string_dec errors PlannerService.circularMessage = 1).
Proof.
  intros Hcycle. unfold PlannerService.validatePlan.
  destruct (PlannerService.hasCircularDependencies stackDepth
              (PlannerService.steps response)) as [circular|] eqn:Hrun.
  - apply (hasCircularDependencies_sound _ _ _ Hrun) in Hcycle as ->.
    assert (Hcount :
      count_occ string_dec
        (PlannerService.fileErrors allowedPaths heap fs (PlannerService.changes response)
         ++ PlannerService.dependencyErrors (PlannerService.steps response)
         ++ [PlannerService.circularMessage]) PlannerService.circularMessage = 1).
    { rewrite app_assoc. apply count_occ_snoc_fresh. intros e Hin.
      apply in_app_iff in Hin as [Hin|Hin].
      - eapply fileErrors_not_circular. eassumption.
      - eapply dependencyErrors_not_circular. eassumption. }
    eexists. split; [|split; [left; exact Hcount | intros _; exact Hcount]].
    f_equal.
    destruct (PlannerService.fileErrors _ _ _ _); [|reflexivity].
    destruct (PlannerService.dependencyErrors _); reflexivity.
  - eexists. split; [reflexivity|]. split; [right; reflexivity|].
    intros Hdepth.
    destruct (hasCircularDependencies_correct stackDepth (PlannerService.steps response)
                Hdepth) as [b [Hreturns _]].
    rewrite Hreturns in Hrun. discriminate Hrun.
Qed.

Lemma validatePlan_cycle_reported_witness :
  exists errors,
    PlannerService.validatePlan FSAdapter.defaultAllowedPaths Samples.callStack
      (fun _ => Samples.createEmptyFile) ∅ Samples.cyclePlan = (false, errors)
    /\ count_occ string_dec errors PlannerService.circularMessage = 1.
Proof.
  destruct (validatePlan_cycle_reported FSAdapter.defaultAllowedPaths Samples.callStack
              (fun _ => Samples.createEmptyFile) ∅ Samples.cyclePlan cycleABC_cyclic)
    as [errors [Hrun [_ Hcount]]].
  exists errors. split; [exact Hrun|]. apply Hcount. vm_compute. lia.
Defined.

(** *** A traversal deeper than the call stack *)

Lemma tally_inj (i j : nat) : Samples.tally i = Samples.tally j -> i = j.
Proof.
  revert j. induction i as [|i IH]; intros [|j] H; try discriminate H; [reflexivity|].
  injection H as H. f_equal. apply IH. assumption.
Qed.

Lemma stepId_inj (i j : nat) : Samples.stepId i = Samples.stepId j -> i = j.
Proof.
  unfold Samples.stepId. intros H. injection H as H. apply tally_inj. assumption.
Qed.

Lemma findStep_ring (m k : nat) :
  k <= m ->
  PlannerService.findStep (Samples.ring m) (Samples.stepId k)
  = Some (Samples.step (Samples.stepId k)
            [Samples.stepId (if Nat.eqb k m then 0 else S k)]).
Proof.
  intros Hk. unfold Samples.ring, PlannerService.findStep.
  assert (Hfind : forall len a,
    a <= k < a + len ->
    List.find (fun s => String.eqb (id s) (Samples.stepId k))
      (map (fun i => Samples.step (Samples.stepId i)
                       [Samples.stepId (if Nat.eqb i m then 0 else S i)])
           (seq a len))
    = Some (Samples.step (Samples.stepId k)
              [Samples.stepId (if Nat.eqb k m then 0 else S k)])).
  { induction len as [|len IH]; intros a Ha; [lia|].
    cbn [seq map List.find Samples.step id].
    destruct (String.eqb_spec (Samples.stepId a) (Samples.stepId k)) as [Heq|Hne].
    - apply stepId_inj in Heq. subst a. reflexivity.
    - apply IH. assert (a <> k) by (intros ->; contradiction). lia. }
  apply Hfind. lia.
Qed.

(** In the ring, a call on step [k] that is left fewer frames than there
    are steps from [k] on throws. *)
Lemma hasCycle_ring_overflow (m : nat) :
  forall fuel k V S,
    k + fuel <= m ->
    (forall j, k <= j -> (Samples.stepId j ∉ V) /\ (Samples.stepId j ∉ S)) ->
    PlannerService.hasCycle fuel (Samples.ring m) (Samples.stepId k) (V, S) = None.
Proof.
  induction fuel as [|fuel IH]; intros k V S Hk Hfresh; [reflexivity|].
  cbn [PlannerService.hasCycle].
  destruct (Hfresh k (Nat.le_refl k)) as [HV HS].
  rewrite decide_False by assumption. rewrite decide_False by assumption.
  rewrite findStep_ring by lia.
  cbn [dependencies Samples.step].
  replace (Nat.eqb k m) with false by (symmetry; apply Nat.eqb_neq; lia).
  cbn [PlannerService.depsLoop].
  rewrite IH; [reflexivity | lia|].
  intros j Hj. destruct (Hfresh j ltac:(lia)) as [HjV HjS].
  assert (Hne : Samples.stepId j <> Samples.stepId k)
    by (intros Heq; apply stepId_inj in Heq; lia).
  set_solver.
Qed.

Lemma ring_cyclic (m : nat) : PlanGraph.cyclic (Samples.ring m).
Proof.
  assert (Hedge : forall k, k <= m ->
            PlanGraph.dependsOn (Samples.ring m) (Samples.stepId k)
              (Samples.stepId (if Nat.eqb k m then 0 else S k))).
  { intros k Hk. eexists. split; [apply findStep_ring; assumption|]. left. reflexivity. }
  assert (Hreach : forall k, k <= m ->
            rtc (PlanGraph.dependsOn (Samples.ring m)) (Samples.stepId 0) (Samples.stepId k)).
  { induction k as [|k IH]; intros Hk; [apply rtc_refl|].
    eapply rtc_r; [apply IH; lia|].
    pose proof (Hedge k ltac:(lia)) as He.
    replace (Nat.eqb k m) with false in He by (symmetry; apply Nat.eqb_neq; lia).
    exact He. }
  exists (Samples.stepId m).
  pose proof (Hedge m (Nat.le_refl m)) as Hback. rewrite Nat.eqb_refl in Hback.
  eapply tc_rtc_r; [apply tc_once; exact Hback|]. apply Hreach. apply Nat.le_refl.
Qed.

(** Whatever room the call stack has, [validatePlan] answers the ring
    with one step more with the internal error alone. *)
Lemma validatePlan_ring_overflow (allowedPaths : list string) (stackDepth : nat)
    (heap : nat -> FileChange) (fs : gmap string string) :
  PlannerService.validatePlan allowedPaths stackDepth heap fs (Samples.ringPlan stackDepth)
  = (false, [PlannerService.internalError]).
Proof.
  unfold PlannerService.validatePlan, PlannerService.hasCircularDependencies.
  cbn [PlannerService.steps Samples.ringPlan].
  assert (Hloop : PlannerService.stepsLoop stackDepth (Samples.ring stackDepth)
                    (Samples.ring stackDepth) (∅, ∅) = None).
  { unfold Samples.ring at 2. cbn [seq map PlannerService.stepsLoop Samples.step id].
    rewrite (hasCycle_ring_overflow stackDepth stackDepth 0 ∅ ∅); [reflexivity | lia|].
    intros j _. set_solver. }
  rewrite Hloop. reflexivity.
Qed.

(** C5, as stated, fails: whatever room the call stack has for nested
    calls, there is a plan whose steps form a cycle, the ring with one
    step more, on which the traversal exhausts the stack; [validatePlan]
    catches that and reports the internal error, and the
    circular-dependency error not at all. *)
Lemma validatePlan_cycle_reported_counterexample :
  exists plan : nat -> PlannerService.AIResponse,
    forall stackDepth,
      PlanGraph.cyclic (PlannerService.steps (plan stackDepth))
      /\ PlannerService.validatePlan FSAdapter.defaultAllowedPaths stackDepth
           (fun _ => Samples.createEmptyFile) ∅ (plan stackDepth)
         = (false, ["Internal validation error"])
      /\ count_occ string_dec ["Internal validation error"]
           PlannerService.circularMessage = 0.
Proof.
  exists Samples.ringPlan. intros stackDepth.
  split; [apply ring_cyclic|]. split; [apply validatePlan_ring_overflow | reflexivity].
Qed.

(** ** Batch operations *)

Section BatchProperties.

Variable World : Type.
Variable readFile : World -> string -> result string * World.
Variable writeFile : World -> string -> string -> result unit * World.
Variable deleteFile : World -> string -> result unit * World.

Local Abbreviation batch := (Batch.batchOperationWith World readFile writeFile deleteFile).

Lemma batchOperationWith_app (w : World) (ops1 ops2 : list Batch.Operation) :
  batch w (ops1 ++ ops2)
  = (fst (batch w ops1) ++ fst (batch (snd (batch w ops1)) ops2),
     snd (batch (snd (batch w ops1)) ops2)).
Proof.
  revert w. induction ops1 as [|o ops1 IH]; intros w.
  - cbn. destruct (Batch.batchOperationWith _ _ _ _ w ops2). reflexivity.
  - cbn [app Batch.batchOperationWith].
    destruct (Batch.runOperationWith World readFile writeFile deleteFile w o) as [r w1].
    rewrite IH.
    destruct (Batch.batchOperationWith _ _ _ _ w1 ops1) as [rs w2]. cbn [fst snd].
    destruct (Batch.batchOperationWith _ _ _ _ w2 ops2) as [rs' w3]. reflexivity.
Qed.

Lemma batchOperationWith_length (w : World) (ops : list Batch.Operation) :
  length (fst (batch w ops)) = length ops.
Proof.
  revert w. induction ops as [|o ops IH]; intros w; [reflexivity|].
  cbn [Batch.batchOperationWith].
  destruct (Batch.runOperationWith World readFile writeFile deleteFile w o) as [r w1].
  specialize (IH w1).
  destruct (Batch.batchOperationWith _ _ _ _ w1 ops) as [rs w2].
  cbn [fst length] in *. rewrite IH. reflexivity.
Qed.

(** C8. Whatever the adapter's [readFile], [writeFile] and [deleteFile]
    do, [batchOperation] returns one result per entry, in order. Entry
    [i] calls the method of its type once, on what the entries before it
    left, whether they succeeded or not: when the method returns, the
    result is a success (with the content, for a read); when it throws,
    the result is a failure carrying the message thrown; an entry of
    another type is a failure that calls nothing. The entries after it
    run on what the call left. *)
Theorem batchOperation_independent (w : World) (ops : list Batch.Operation) :
  length (fst (batch w ops)) = length ops
  /\ forall i operation,
       ops !! i = Some operation ->
       let before := snd (batch w (take i ops)) in
       let after := snd (batch w (take (S i) ops)) in
       exists r,
         fst (batch w ops) !! i = Some r
         /\ match Batch.type operation with
            | Batch.Read =>
                match readFile before (Batch.path operation) with
                | (Ok c, w') =>
                    Batch.success r = true /\ Batch.error r = None
                    /\ Batch.resultContent r = Some c /\ after = w'
                | (Err message, w') =>
                    Batch.success r = false /\ Batch.error r = Some message /\ after = w'
                end
            | Batch.Write =>
                match writeFile before (Batch.path operation)
                        (Js.orEmpty (Batch.content operation)) with
                | (Ok _, w') =>
                    Batch.success r = true /\ Batch.error r = None /\ after = w'
                | (Err message, w') =>
                    Batch.success r = false /\ Batch.error r = Some message /\ after = w'
                end
            | Batch.Delete =>
                match deleteFile before (Batch.path operation) with
                | (Ok _, w') =>
                    Batch.success r = true /\ Batch.error r = None /\ after = w'
                | (Err message, w') =>
                    Batch.success r = false /\ Batch.error r = Some message /\ after = w'
                end
            | Batch.Other =>
                Batch.success r = false /\ Batch.error r = Some "Unknown operation type"
                /\ after = before
            end.
Proof.
  split; [apply batchOperationWith_length|].
  intros i operation Hi. cbn zeta.
  assert (Hlen : length (take i ops) = i)
    by (rewrite length_take; apply lookup_lt_Some in Hi; lia).
  set (before := snd (batch w (take i ops))).
  assert (Hresult :
    fst (batch w ops) !! i
    = Some (fst (Batch.runOperationWith World readFile writeFile deleteFile before
                   operation))).
  { rewrite <- (take_drop_middle ops i operation Hi) at 1.
    rewrite batchOperationWith_app. cbn [fst].
    rewrite lookup_app_r by (rewrite batchOperationWith_length, Hlen; lia).
    rewrite batchOperationWith_length, Hlen, Nat.sub_diag.
    cbn [Batch.batchOperationWith]. fold before.
    destruct (Batch.runOperationWith World readFile writeFile deleteFile before operation)
      as [r w1].
    destruct (Batch.batchOperationWith _ _ _ _ w1 _) as [rs w2]. reflexivity. }
  assert (Hafter :
    snd (batch w (take (S i) ops))
    = snd (Batch.runOperationWith World readFile writeFile deleteFile before operation)).
  { rewrite (take_S_r ops i operation Hi), batchOperationWith_app.
    cbn [snd Batch.batchOperationWith]. fold before.
    destruct (Batch.runOperationWith World readFile writeFile deleteFile before operation)
      as [r w1]. reflexivity. }
  rewrite Hresult, Hafter. eexists. split; [reflexivity|].
  unfold Batch.runOperationWith.
  destruct (Batch.type operation).
  - destruct (readFile before (Batch.path operation)) as [[c|m] w']; cbn; auto.
  - destruct (writeFile before (Batch.path operation) _) as [[u|m] w']; cbn; auto.
  - destruct (deleteFile before (Batch.path operation)) as [[u|m] w']; cbn; auto.
  - cbn. auto.
Qed.

End BatchProperties.

(** ** Lines of a file *)



(** ** Inserting a line *)

Lemma readFile_allowed (allowedPaths : list string) (fs : gmap string string)
    (filePath c : string) :
  FSAdapter.readFile allowedPaths fs filePath = Ok c ->
  FSAdapter.isPathAllowed allowedPaths filePath = true
  /\ fs !! FSAdapter.fileKey filePath = Some c.
Proof.
  unfold FSAdapter.readFile.
  destruct (FSAdapter.isPathAllowed allowedPaths filePath); [|discriminate].
  destruct (fs !! FSAdapter.fileKey filePath); [|discriminate].
  intros H. injection H as ->. auto.
Qed.






(** ** The validation phase of a transaction *)

Section TransactionValidation.

Variable allowedPaths : list string.
Variable etag : string -> string.

Lemma engineCheck_rejects_iff (fs : gmap string string) (change : FileChange) :
  valid (ChangeSpec.engineCheck allowedPaths fs change) = false <->
  FSAdapter.isPathAllowed allowedPaths (file change) = false
  \/ (op change = OpUpdate
      /\ exists message, FSAdapter.readFile allowedPaths fs (file change) = Err message)
  \/ (applyMethod change = Diff
      /\ Js.truthy (diff change) = true
      /\ TransactionService.validateDiff (Js.orEmpty (diff change)) = false
      /\ Js.truthy (content change) = false).
Proof.
  unfold ChangeSpec.engineCheck, FSAdapter.exists_, FSAdapter.readFile.
  destruct (FSAdapter.isPathAllowed allowedPaths (file change)); cbn [negb andb];
    [|cbn; tauto].
  destruct (fs !! FSAdapter.fileKey (file change)) as [c|];
    [rewrite bool_decide_eq_true_2 by eauto
    |rewrite bool_decide_eq_false_2 by (intros [? ?]; discriminate)];
    destruct (op change), (applyMethod change), (Js.truthy (diff change)),
      (TransactionService.validateDiff (Js.orEmpty (diff change))),
      (Js.truthy (content change));
    cbn; naive_solver.
Qed.

(** The result the loop of [validateChanges] pushes for a change is the
    engine's check of the change as it is then. *)
Lemma validateChange_engineCheck (fs : gmap string string) (l : loc)
    (h : loc -> FileChange) :
  fst (fst (TransactionService.validateChange allowedPaths fs l h))
  = ChangeSpec.engineCheck allowedPaths fs (h l).
Proof.
  unfold TransactionService.validateChange, ChangeSpec.engineCheck, FSAdapter.exists_,
    FSAdapter.readFile.
  destruct (FSAdapter.isPathAllowed allowedPaths (file (h l))); cbn [negb andb];
    [|reflexivity].
  destruct (fs !! FSAdapter.fileKey (file (h l))) as [c|];
    [rewrite bool_decide_eq_true_2 by eauto
    |rewrite bool_decide_eq_false_2 by (intros [? ?]; discriminate)];
    destruct (op (h l)), (applyMethod (h l)), (Js.truthy (diff (h l))),
      (TransactionService.validateDiff (Js.orEmpty (diff (h l)))),
      (Js.truthy (content (h l)));
    reflexivity.
Qed.

(** A turn of the loop leaves its object as it was, or sets the apply
    method of an object that passed the first two checks. *)
Lemma validateChange_at (fs : gmap string string) (l0 : loc) (h : loc -> FileChange) :
  snd (fst (TransactionService.validateChange allowedPaths fs l0 h)) l0 = h l0
  \/ (snd (fst (TransactionService.validateChange allowedPaths fs l0 h)) l0
      = TransactionService.setApplyMethod ReplaceFile (h l0)
      /\ FSAdapter.isPathAllowed allowedPaths (file (h l0)) = true
      /\ (op (h l0) = OpUpdate ->
          FSAdapter.exists_ allowedPaths fs (file (h l0)) = true)).
Proof.
  unfold TransactionService.validateChange, FSAdapter.exists_, FSAdapter.readFile.
  destruct (FSAdapter.isPathAllowed allowedPaths (file (h l0))); cbn [negb andb];
    [|left; reflexivity].
  assert (Hstore : forall change, TransactionService.store h l0 change l0 = change)
    by (intros change; unfold TransactionService.store; rewrite Nat.eqb_refl; reflexivity).
  destruct (fs !! FSAdapter.fileKey (file (h l0))) as [c|];
    [rewrite bool_decide_eq_true_2 by eauto
    |rewrite bool_decide_eq_false_2 by (intros [? ?]; discriminate)];
    destruct (op (h l0)), (applyMethod (h l0)), (Js.truthy (diff (h l0))),
      (TransactionService.validateDiff (Js.orEmpty (diff (h l0)))),
      (Js.truthy (content (h l0)));
    cbn [negb fst snd]; rewrite ?Hstore; auto;
    right; (split; [reflexivity|]); (split; [reflexivity|]); intros; (reflexivity || discriminate).
Qed.

(** A turn of the loop changes no other object, and none in a way that
    would make the engine reject it later. *)
Lemma validateChange_later (fs : gmap string string) (l0 l : loc) (h : loc -> FileChange) :
  (l <> l0 -> snd (fst (TransactionService.validateChange allowedPaths fs l0 h)) l = h l)
  /\ (valid (ChangeSpec.engineCheck allowedPaths fs
               (snd (fst (TransactionService.validateChange allowedPaths fs l0 h)) l))
      = false ->
      valid (ChangeSpec.engineCheck allowedPaths fs (h l)) = false).
Proof.
  assert (Hstored : forall change,
    l <> l0 -> TransactionService.store h l0 change l = h l).
  { intros change Hne. unfold TransactionService.store.
    rewrite (proj2 (Nat.eqb_neq l l0) Hne). reflexivity. }
  destruct (Nat.eq_dec l l0) as [->|Hne].
  - split; [congruence|].
    destruct (validateChange_at fs l0 h) as [->|[-> [Hallowed Hreadable]]]; [auto|].
    unfold ChangeSpec.engineCheck.
    cbn [file op applyMethod diff content TransactionService.setApplyMethod].
    rewrite Hallowed. cbn [negb andb].
    destruct (op (h l0)); try discriminate.
    rewrite Hreadable by reflexivity. discriminate.
  - assert (Hsame :
      snd (fst (TransactionService.validateChange allowedPaths fs l0 h)) l = h l).
    { unfold TransactionService.validateChange.
      destruct (negb _); [reflexivity|].
      destruct (match op (h l0) with OpUpdate => _ | _ => _ end); [|reflexivity].
      destruct (applyMethod (h l0)); try reflexivity.
      destruct (Js.truthy (diff (h l0))); [|reflexivity].
      destruct (TransactionService.validateDiff _); [reflexivity|].
      destruct (negb _); cbn [fst snd]; apply Hstored; assumption. }
    rewrite Hsame. auto.
Qed.

Lemma validateChanges_length (fs : gmap string string) (changes : list loc) :
  forall h,
    length (fst (fst (TransactionService.validateChanges allowedPaths fs changes h)))
    = length changes.
Proof.
  induction changes as [|l0 changes IH]; intros h; [reflexivity|].
  cbn [TransactionService.validateChanges].
  destruct (TransactionService.validateChange allowedPaths fs l0 h) as [[r h1] evs1].
  specialize (IH h1).
  destruct (TransactionService.validateChanges allowedPaths fs changes h1) as [[rs h2] evs2].
  cbn [fst length] in *. rewrite IH. reflexivity.
Qed.

(** Each change is checked as it was at the start, when no object is
    listed twice. *)
Lemma validateChanges_engineCheck (fs : gmap string string) (changes : list loc) :
  forall h,
    NoDup changes ->
    fst (fst (TransactionService.validateChanges allowedPaths fs changes h))
    = map (fun l => ChangeSpec.engineCheck allowedPaths fs (h l)) changes.
Proof.
  induction changes as [|l0 changes IH]; intros h Hnodup; [reflexivity|].
  apply NoDup_cons in Hnodup as [Hfresh Hnodup].
  cbn [TransactionService.validateChanges map].
  pose proof (validateChange_engineCheck fs l0 h) as Hhead.
  pose proof (fun l => proj1 (validateChange_later fs l0 l h)) as Hlater.
  destruct (TransactionService.validateChange allowedPaths fs l0 h) as [[r h1] evs1].
  specialize (IH h1 Hnodup).
  destruct (TransactionService.validateChanges allowedPaths fs changes h1) as [[rs h2] evs2].
  cbn [fst snd] in *. rewrite Hhead, IH. f_equal.
  apply map_ext_in. intros l Hl. rewrite Hlater; [reflexivity|].
  intros ->. apply Hfresh. apply list_elem_of_In. assumption.
Qed.

(** Some result is invalid exactly when the engine rejects some change
    of the list as it was at the start. *)
Lemma validateChanges_gate (fs : gmap string string) (changes : list loc) :
  forall h,
    existsb (fun r => negb (valid r))
      (fst (fst (TransactionService.validateChanges allowedPaths fs changes h))) = true
    <-> exists l, In l changes
                  /\ valid (ChangeSpec.engineCheck allowedPaths fs (h l)) = false.
Proof.
  induction changes as [|l0 changes IH]; intros h.
  - cbn. split; [discriminate | intros [l [[] _]]].
  - cbn [TransactionService.validateChanges].
    pose proof (validateChange_engineCheck fs l0 h) as Hhead.
    pose proof (fun l => validateChange_later fs l0 l h) as Hlater.
    destruct (TransactionService.validateChange allowedPaths fs l0 h) as [[r h1] evs1].
    specialize (IH h1).
    destruct (TransactionService.validateChanges allowedPaths fs changes h1)
      as [[rs h2] evs2].
    cbn [fst snd existsb] in *. rewrite orb_true_iff, IH, Hhead, negb_true_iff. split.
    + intros [Hr|[l [Hin Hl]]].
      * exists l0. split; [left; reflexivity | assumption].
      * exists l. split; [right; assumption|]. apply (Hlater l). assumption.
    + intros [l [[<-|Hin] Hl]]; [left; assumption|].
      destruct (Nat.eq_dec l l0) as [->|Hne]; [left; assumption|].
      right. exists l. split; [assumption|].
      rewrite (proj1 (Hlater l) Hne). assumption.
Qed.

(** C2, as amended. Before applying any change, [executeTransaction]
    checks every change of the list against the workspace as it is
    then, one result per change: the path must pass the policy, the
    target of an update must be readable, and a given diff that fails
    the structural check needs content to fall back on. When no object
    is listed twice the results are the checks of the changes, in
    order. If the check rejects any change of the list, the transaction
    fails with the errors of all the rejected results joined, and the
    workspace is as it was. *)
Theorem executeTransaction_validation_gate (txnId planId : string) (changes : list loc)
    (options : ApplyOptions) (st : TransactionService.State) :
  let fs0 := TransactionService.fs st in
  let h := TransactionService.heap st in
  let results :=
    fst (fst (TransactionService.validateChanges allowedPaths fs0 changes h)) in
  (forall change,
     valid (ChangeSpec.engineCheck allowedPaths fs0 change) = false <->
     FSAdapter.isPathAllowed allowedPaths (file change) = false
     \/ (op change = OpUpdate
         /\ exists message,
              FSAdapter.readFile allowedPaths fs0 (file change) = Err message)
     \/ (applyMethod change = Diff
         /\ Js.truthy (diff change) = true
         /\ TransactionService.validateDiff (Js.orEmpty (diff change)) = false
         /\ Js.truthy (content change) = false))
  /\ length results = length changes
  /\ (NoDup changes ->
      results = map (fun l => ChangeSpec.engineCheck allowedPaths fs0 (h l)) changes)
  /\ (existsb (fun r => negb (valid r)) results = true <->
      exists l, In l changes
                /\ valid (ChangeSpec.engineCheck allowedPaths fs0 (h l)) = false)
  /\ ((exists l, In l changes
                 /\ valid (ChangeSpec.engineCheck allowedPaths fs0 (h l)) = false) ->
      exists st',
        TransactionService.executeTransaction allowedPaths etag txnId planId changes options st
        = (Err ("Validation failed: " +:+
                Js.join ", " (map (fun r => Js.orEmpty (error r))
                                  (List.filter (fun r => negb (valid r)) results))),
           st')
        /\ TransactionService.fs st' = fs0).
Proof.
  cbn zeta. split; [apply engineCheck_rejects_iff|].
  split; [apply validateChanges_length|].
  split; [apply validateChanges_engineCheck|].
  split; [apply validateChanges_gate|].
  intros Hinvalid. apply validateChanges_gate in Hinvalid.
  unfold TransactionService.executeTransaction.
  set (st0 := {| TransactionService.fs := TransactionService.fs st;
                 TransactionService.heap := TransactionService.heap st;
                 TransactionService.activeTransactions := _;
                 TransactionService.backups := TransactionService.backups st;
                 TransactionService.events := TransactionService.events st |}).
  assert (Hsame :
    TransactionService.validateChanges allowedPaths
      (TransactionService.fs
         (if createBackups options
          then TransactionService.createBackups allowedPaths etag txnId changes st0 else st0))
      changes
      (TransactionService.heap
         (if createBackups options
          then TransactionService.createBackups allowedPaths etag txnId changes st0 else st0))
    = TransactionService.validateChanges allowedPaths
        (TransactionService.fs st) changes (TransactionService.heap st)).
  { destruct (createBackups options); reflexivity. }
  rewrite Hsame.
  destruct (TransactionService.validateChanges allowedPaths (TransactionService.fs st)
              changes (TransactionService.heap st)) as [[results h2] evs].
  cbn [fst] in Hinvalid. rewrite Hinvalid.
  eexists. split; [reflexivity|].
  destruct (createBackups options); reflexivity.
Qed.

End TransactionValidation.

Lemma executeTransaction_validation_gate_witness :
  exists st',
    TransactionService.executeTransaction FSAdapter.defaultAllowedPaths Samples.etag
      "txn-1" "plan-1" [0] Samples.withBackups (Samples.fresh Samples.onlyB Samples.badDiffOutside)
    = (Err "Validation failed: Path not allowed", st')
    /\ TransactionService.fs st' = Samples.onlyB.
Proof.
  apply (proj2 (proj2 (proj2 (proj2
           (executeTransaction_validation_gate FSAdapter.defaultAllowedPaths Samples.etag
              "txn-1" "plan-1" [0] Samples.withBackups
              (Samples.fresh Samples.onlyB Samples.badDiffOutside)))))).
  exists 0. split; [left; reflexivity | reflexivity].
Defined.

(** C2, as stated, fails: creating a file that exists is rejected by the
    change-level validation of the plan validator, yet the transaction
    does not fail: it succeeds and overwrites the file. *)
Lemma executeTransaction_validation_gate_counterexample :
  PlannerService.validateFileChange FSAdapter.defaultAllowedPaths Samples.onlyB
    (Samples.createExisting 0) = reject "File already exists"
  /\ exists st',
       TransactionService.executeTransaction FSAdapter.defaultAllowedPaths Samples.etag
         "txn-1" "plan-1" [0] Samples.withBackups
         (Samples.fresh Samples.onlyB Samples.createExisting)
       = (Ok {| TransactionService.resultSuccess := true;
                TransactionService.appliedFiles := ["src/b.ts"];
                TransactionService.errors := [] |}, st')
       /\ Samples.onlyB !! "src/b.ts" = Some "old"
       /\ TransactionService.fs st' !! "src/b.ts" = Some "new".
Proof.
  split; [reflexivity|]. eexists. split; [reflexivity|]. split; reflexivity.
Qed.

(** ** Rollback and dry run on concrete transactions *)

(** The backup set of a transaction holds targets of update and delete
    changes only: the file of a create or of a rename is never in it. *)
Lemma createBackups_targets (allowedPaths : list string) (etag : string -> string)
    (txnId : string) (changes : list loc) (st : TransactionService.State)
    (b : TransactionService.BackupFile) :
  (TransactionService.files
     <$> TransactionService.backups
           (TransactionService.createBackups allowedPaths etag txnId changes st) !! txnId)
  = Some (flat_map (fun l => TransactionService.backupEntry allowedPaths etag
                                (TransactionService.fs st) (TransactionService.heap st l))
                   changes)
  /\ (In b (flat_map (fun l => TransactionService.backupEntry allowedPaths etag
                                 (TransactionService.fs st) (TransactionService.heap st l))
                     changes) ->
      exists l, In l changes
                /\ TransactionService.path b = file (TransactionService.heap st l)
                /\ (op (TransactionService.heap st l) = OpUpdate
                    \/ op (TransactionService.heap st l) = OpDelete)).
Proof.
  split.
  - unfold TransactionService.createBackups. cbn. rewrite lookup_insert_eq. reflexivity.
  - rewrite in_flat_map. intros [l [Hin Hb]]. exists l. split; [assumption|].
    unfold TransactionService.backupEntry in Hb.
    destruct (op (TransactionService.heap st l)); try contradiction;
      destruct (FSAdapter.exists_ _ _ _);
      try destruct (FSAdapter.readFile _ _ _);
      try contradiction; destruct Hb as [<-|[]]; cbn; auto.
Qed.

(** C1 at its failing input. A create of [src/a.ts] followed by a diff
    update of [src/b.ts], with backups and without dry run: the update
    cannot be applied, the transaction is rolled back and fails, the
    failing change's file is untouched, and the file the first change
    created is still there. *)
Theorem executeTransaction_rollback_keeps_created_file :
  exists st',
    TransactionService.executeTransaction FSAdapter.defaultAllowedPaths Samples.etag
      "txn-1" "plan-1" [0; 1] Samples.withBackups
      (Samples.fresh Samples.onlyB Samples.createThenDiff)
    = (Err ("Transaction failed and rolled back: Failed to apply change to src/b.ts: "
            +:+ "Diff application not yet implemented - use replaceFile method"), st')
    /\ Samples.onlyB !! "src/a.ts" = None
    /\ TransactionService.fs st' !! "src/a.ts" = Some "export const a = 1;"
    /\ TransactionService.fs st' !! "src/b.ts" = Some "old"
    /\ (TransactionService.files <$> TransactionService.backups st' !! "txn-1")
       = Some [ {| TransactionService.path := "src/b.ts";
                   TransactionService.backupContent := "old";
                   TransactionService.backupEtag := Samples.etag "old";
                   TransactionService.existed := true |} ].
Proof.
  eexists. split; [vm_compute; reflexivity|]. repeat split; vm_compute; reflexivity.
Qed.

(** Under dry run the apply loop never throws and never rolls back: it
    attempts every change, each ending among the applied files or among
    the errors, and leaves the backups as they were. *)
Lemma applyChanges_dryRun_continues (allowedPaths : list string) (txnId : string)
    (options : ApplyOptions) (total : nat) (changes : list loc) :
  dryRun options = true ->
  forall index applied errs st,
    exists applied' errs' st',
      TransactionService.applyChanges allowedPaths txnId options total index changes
        applied errs st = (Ok (applied', errs'), st')
      /\ length applied' + length errs' = length applied + length errs + length changes
      /\ TransactionService.backups st' = TransactionService.backups st.
Proof.
  intros Hdry. induction changes as [|l changes IH]; intros index applied errs st.
  - exists applied, errs, st. cbn. split; [reflexivity|]. split; [lia | reflexivity].
  - cbn [TransactionService.applyChanges]. rewrite Hdry. cbn [negb].
    destruct (TransactionService.applyFileChange _ _ _ _) as [fs'|message].
    + match goal with
      | |- context [TransactionService.applyChanges _ _ _ _ ?i _ ?a ?e ?s] =>
          destruct (IH i a e s) as [applied' [errs' [st' [Hrun [Hlen Hbackups]]]]]
      end.
      exists applied', errs', st'. split; [exact Hrun|].
      rewrite length_app in Hlen. cbn [length] in *. split; [lia | exact Hbackups].
    + match goal with
      | |- context [TransactionService.applyChanges _ _ _ _ ?i _ ?a ?e ?s] =>
          destruct (IH i a e s) as [applied' [errs' [st' [Hrun [Hlen Hbackups]]]]]
      end.
      exists applied', errs', st'. split; [exact Hrun|].
      rewrite length_app in Hlen. cbn [length] in *. split; [lia | exact Hbackups].
Qed.

(** C6 at its failing input. Under dry run a create, a failing delete
    and another create: the failure neither stops the loop nor triggers
    a rollback and both creates are listed as applied, but both files
    have really been written. *)
Theorem executeTransaction_dryRun_writes :
  exists st',
    TransactionService.executeTransaction FSAdapter.defaultAllowedPaths Samples.etag
      "txn-1" "plan-1" [0; 1; 2] Samples.dryRunOnly
      (Samples.fresh ∅ Samples.createDeleteCreate)
    = (Ok {| TransactionService.resultSuccess := false;
             TransactionService.appliedFiles := ["src/a.ts"; "src/c.ts"];
             TransactionService.errors :=
               ["Failed to apply change to src/missing.ts: Failed to delete file: src/missing.ts"] |},
       st')
    /\ TransactionService.fs st' !! "src/a.ts" = Some "a"
    /\ TransactionService.fs st' !! "src/c.ts" = Some "c"
    /\ (map TransactionService.type
          <$> (TransactionService.operations
                 <$> TransactionService.activeTransactions st' !! "txn-1"))
       = Some [TransactionService.Apply; TransactionService.Apply; TransactionService.Apply].
Proof.
  eexists. split; [vm_compute; reflexivity|]. repeat split; vm_compute; reflexivity.
Qed.

(** ** The diff fallback mutates the stored plan *)

Section DiffFallback.

Variable allowedPaths : list string.
Variable etag : string -> string.

Lemma validateChange_heap (fs : gmap string string) (l l' : loc) (h : loc -> FileChange) :
  snd (fst (TransactionService.validateChange allowedPaths fs l h)) l' = h l'
  \/ snd (fst (TransactionService.validateChange allowedPaths fs l h)) l'
     = TransactionService.setApplyMethod ReplaceFile (h l').
Proof.
  unfold TransactionService.validateChange.
  destruct (negb _); [left; reflexivity|].
  destruct (match op (h l) with OpUpdate => _ | _ => _ end); [|left; reflexivity].
  destruct (applyMethod (h l)); try (left; reflexivity).
  destruct (Js.truthy (diff (h l))); [|left; reflexivity].
  destruct (TransactionService.validateDiff _); [left; reflexivity|].
  assert (Hstore : TransactionService.store h l
                     (TransactionService.setApplyMethod ReplaceFile (h l)) l' = h l'
                   \/ TransactionService.store h l
                        (TransactionService.setApplyMethod ReplaceFile (h l)) l'
                      = TransactionService.setApplyMethod ReplaceFile (h l')).
  { unfold TransactionService.store. destruct (Nat.eqb_spec l' l) as [->|_]; auto. }
  destruct (negb (Js.truthy (content (h l)))); exact Hstore.
Qed.

Lemma validateChange_fallback (fs : gmap string string) (l : loc) (h : loc -> FileChange) :
  TransactionService.reachesFallback allowedPaths fs (h l) ->
  snd (fst (TransactionService.validateChange allowedPaths fs l h)) l
  = TransactionService.setApplyMethod ReplaceFile (h l).
Proof.
  intros [Hmethod [Hdiff [Hbad [Hallowed Hread]]]].
  unfold TransactionService.validateChange.
  rewrite Hallowed, Hmethod, Hdiff, Hbad. cbn [negb].
  assert (Hok : exists c, match op (h l) with
                          | OpUpdate => FSAdapter.readFile allowedPaths fs (file (h l))
                          | _ => Ok EmptyString
                          end = Ok c).
  { destruct (op (h l)); eauto. }
  destruct Hok as [c ->].
  destruct (negb (Js.truthy (content (h l)))); cbn [fst snd];
    unfold TransactionService.store; rewrite Nat.eqb_refl; reflexivity.
Qed.

Lemma validateChanges_fallback (fs : gmap string string) (changes : list loc) (l : loc)
    (change : FileChange) :
  In l changes ->
  TransactionService.reachesFallback allowedPaths fs change ->
  forall h,
    h l = change \/ h l = TransactionService.setApplyMethod ReplaceFile change ->
    snd (fst (TransactionService.validateChanges allowedPaths fs changes h)) l
    = TransactionService.setApplyMethod ReplaceFile change.
Proof.
  intros Hin Hreach.
  assert (Hkeep : forall changes h,
            h l = TransactionService.setApplyMethod ReplaceFile change ->
            snd (fst (TransactionService.validateChanges allowedPaths fs changes h)) l
            = TransactionService.setApplyMethod ReplaceFile change).
  { clear Hin. intros cs. induction cs as [|l0 cs IH]; intros h Hh; [exact Hh|].
    cbn [TransactionService.validateChanges].
    pose proof (validateChange_heap fs l0 l h) as Hstep.
    destruct (TransactionService.validateChange allowedPaths fs l0 h) as [[r h1] evs1].
    specialize (IH h1).
    destruct (TransactionService.validateChanges allowedPaths fs cs h1) as [[rs h2] evs2].
    cbn [fst snd] in *. apply IH.
    destruct Hstep as [->| ->]; rewrite Hh; reflexivity. }
  induction changes as [|l0 changes IH]; intros h Hh; [contradiction|].
  cbn [TransactionService.validateChanges].
  pose proof (validateChange_heap fs l0 l h) as Hstep.
  pose proof (validateChange_fallback fs l0 h) as Hfall.
  destruct (TransactionService.validateChange allowedPaths fs l0 h) as [[r h1] evs1].
  specialize (Hkeep changes h1). pose proof (fun H => IH H h1) as IH'.
  destruct (TransactionService.validateChanges allowedPaths fs changes h1) as [[rs h2] evs2].
  cbn [fst snd] in *.
  destruct Hh as [Hh|Hh].
  - destruct Hin as [->|Hin].
    + apply Hkeep. rewrite Hfall, Hh by (rewrite Hh; assumption). reflexivity.
    + apply IH'; [assumption|]. destruct Hstep as [->| ->]; rewrite Hh; auto.
  - apply Hkeep. destruct Hstep as [->| ->]; rewrite Hh; reflexivity.
Qed.

(** The apply phase and the rollback leave the change objects alone. *)
Lemma applyChanges_heap (txnId : string) (options : ApplyOptions) (total : nat)
    (changes : list loc) :
  forall index applied errs st,
    TransactionService.heap
      (snd (TransactionService.applyChanges allowedPaths txnId options total index
              changes applied errs st))
    = TransactionService.heap st.
Proof.
  induction changes as [|l changes IH]; intros index applied errs st; [reflexivity|].
  cbn [TransactionService.applyChanges].
  destruct (TransactionService.applyFileChange _ _ _ _) as [fs'|message].
  - rewrite IH. reflexivity.
  - destruct (negb (dryRun options)).
    + unfold TransactionService.rollbackTransaction. cbn.
      destruct (TransactionService.backups st !! txnId); reflexivity.
    + rewrite IH. reflexivity.
Qed.

Lemma executeTransaction_heap (txnId planId : string) (changes : list loc)
    (options : ApplyOptions) (st : TransactionService.State) :
  TransactionService.heap
    (snd (TransactionService.executeTransaction allowedPaths etag txnId planId changes options st))
  = snd (fst (TransactionService.validateChanges allowedPaths (TransactionService.fs st)
                changes (TransactionService.heap st))).
Proof.
  unfold TransactionService.executeTransaction.
  set (st0 := {| TransactionService.fs := TransactionService.fs st;
                 TransactionService.heap := TransactionService.heap st;
                 TransactionService.activeTransactions := _;
                 TransactionService.backups := TransactionService.backups st;
                 TransactionService.events := TransactionService.events st |}).
  set (st1 := if createBackups options then _ else st0).
  assert (Hfs : TransactionService.fs st1 = TransactionService.fs st)
    by (subst st1; destruct (createBackups options); reflexivity).
  assert (Hheap : TransactionService.heap st1 = TransactionService.heap st)
    by (subst st1; destruct (createBackups options); reflexivity).
  rewrite Hfs, Hheap.
  destruct (TransactionService.validateChanges allowedPaths (TransactionService.fs st)
              changes (TransactionService.heap st)) as [[results h2] evs]. cbn [fst snd].
  destruct (existsb _ results); [reflexivity|].
  match goal with
  | |- context [TransactionService.applyChanges ?a ?t ?o ?n ?i ?c ?ap ?er ?s] =>
      pose proof (applyChanges_heap t o n c i ap er s) as Happly;
      destruct (TransactionService.applyChanges a t o n i c ap er s) as [[[applied errs]|thrown] st3]
  end; cbn [snd] in *; exact Happly.
Qed.

End DiffFallback.

Lemma changesToApply_subset (h : loc -> FileChange) (plan : PlannerService.AIResponse)
    (selectedFiles : option (list string)) (l : loc) :
  In l (Routes.changesToApply h plan selectedFiles) -> In l (PlannerService.changes plan).
Proof.
  unfold Routes.changesToApply. destruct selectedFiles as [[|f fl]|]; try tauto.
  intros Hin. apply filter_In in Hin. tauto.
Qed.

(** C10, as amended. When the apply route runs a stored plan, every
    selected change whose apply method is [diff], whose diff text is not
    empty and fails the structural check, which carries non-empty
    content, whose path passes the policy and whose target can be read
    if it is an update, has its apply method set to [replaceFile] in the
    object the plan store holds: afterwards the stored plan refers to the
    same object, whose other fields are unchanged, and applying it as an
    update writes the content instead of attempting the diff. *)
Theorem applyPlan_diff_fallback_persists (allowedPaths : list string) (etag : string -> string)
    (txnId planId : string) (selectedFiles : option (list string))
    (options : ApplyOptions) (srv : Routes.Server) (plan : PlannerService.AIResponse)
    (l : loc) (d c : string) :
  let h := TransactionService.heap (Routes.transactions srv) in
  let files := TransactionService.fs (Routes.transactions srv) in
  Routes.activePlans srv !! planId = Some plan ->
  In l (Routes.changesToApply h plan selectedFiles) ->
  applyMethod (h l) = Diff ->
  diff (h l) = Some d ->
  d <> EmptyString ->
  TransactionService.validateDiff d = false ->
  content (h l) = Some c ->
  c <> EmptyString ->
  FSAdapter.isPathAllowed allowedPaths (file (h l)) = true ->
  (op (h l) = OpUpdate ->
   exists cur, FSAdapter.readFile allowedPaths files (file (h l)) = Ok cur) ->
  let srv' := snd (Routes.applyPlan allowedPaths etag txnId planId selectedFiles options srv) in
  let h' := TransactionService.heap (Routes.transactions srv') in
  Routes.activePlans srv' !! planId = Some plan
  /\ In l (PlannerService.changes plan)
  /\ h' l = TransactionService.setApplyMethod ReplaceFile (h l)
  /\ forall fs',
       TransactionService.applyUpdate allowedPaths fs' (h' l)
       = FSAdapter.writeFile allowedPaths fs' (file (h l)) c.
Proof.
  intros h files Hplan Hin Hmethod Hdiff Hd Hbad Hcontent Hc Hallowed Hread srv' h'.
  assert (Hreach : TransactionService.reachesFallback allowedPaths files (h l)).
  { unfold TransactionService.reachesFallback. rewrite Hdiff. cbn [Js.truthy Js.orEmpty].
    destruct (String.eqb_spec d EmptyString); [contradiction|]. auto. }
  assert (Hh' : h' l = TransactionService.setApplyMethod ReplaceFile (h l)).
  { subst h' srv'. unfold Routes.applyPlan. rewrite Hplan.
    match goal with
    | |- context [TransactionService.executeTransaction ?a ?e ?t ?p ?cs ?o ?s] =>
        pose proof (executeTransaction_heap a e t p cs o s) as Hheap;
        destruct (TransactionService.executeTransaction a e t p cs o s) as [[r|m] st']
    end; cbn [snd Routes.transactions] in *; rewrite Hheap;
      apply validateChanges_fallback; auto. }
  split.
  { subst srv'. unfold Routes.applyPlan. rewrite Hplan.
    destruct (TransactionService.executeTransaction _ _ _ _ _ _ _) as [[r|m] st'];
      exact Hplan. }
  split; [eapply changesToApply_subset; eassumption|].
  split; [exact Hh'|].
  intros fs'. rewrite Hh'. unfold TransactionService.applyUpdate. cbn. rewrite Hcontent.
  cbn [Js.truthy Js.orEmpty].
  destruct (String.eqb_spec c EmptyString); [contradiction | reflexivity].
Qed.

Lemma applyPlan_diff_fallback_persists_witness :
  let srv' := snd (Routes.applyPlan FSAdapter.defaultAllowedPaths Samples.etag "txn-1" "plan-1"
                     None Samples.withBackups (Samples.server ∅ Samples.badDiffInside)) in
  Routes.activePlans srv' !! "plan-1" = Some Samples.storedPlan
  /\ In 0 (PlannerService.changes Samples.storedPlan)
  /\ applyMethod (TransactionService.heap (Routes.transactions srv') 0) = ReplaceFile.
Proof.
  destruct (applyPlan_diff_fallback_persists FSAdapter.defaultAllowedPaths Samples.etag
              "txn-1" "plan-1" None Samples.withBackups (Samples.server ∅ Samples.badDiffInside)
              Samples.storedPlan 0 "not a diff" "content")
    as [Hplan [Hin [Hheap _]]];
    try reflexivity; try discriminate.
  - left. reflexivity.
  - cbn zeta. split; [exact Hplan|]. split; [exact Hin|]. rewrite Hheap. reflexivity.
Defined.

(** C10, as stated, fails: a diff change with a malformed diff and
    literal content, whose path the policy forbids, is rejected before
    the diff is looked at; its apply method is still [diff] after
    [validateChanges] and after the apply route. *)
Lemma applyPlan_diff_fallback_persists_counterexample :
  applyMethod (Samples.badDiffOutside 0) = Diff
  /\ TransactionService.validateDiff (Js.orEmpty (diff (Samples.badDiffOutside 0))) = false
  /\ content (Samples.badDiffOutside 0) = Some "content"
  /\ applyMethod
       (snd (fst (TransactionService.validateChanges FSAdapter.defaultAllowedPaths ∅ [0]
                    Samples.badDiffOutside)) 0) = Diff
  /\ applyMethod
       (TransactionService.heap
          (Routes.transactions
             (snd (Routes.applyPlan FSAdapter.defaultAllowedPaths Samples.etag "txn-1" "plan-1"
                     None Samples.withBackups (Samples.server ∅ Samples.badDiffOutside)))) 0)
     = Diff.
Proof. repeat split; vm_compute; reflexivity. Qed.

(* ================================================================== *)
(** * Part III: further properties of the services                      *)
(* ================================================================== *)

(** ** The adapter stays under the allow-list *)

Section Containment.

Variable allowedPaths : list string.

Lemma startsWith_refl (s : string) : Js.startsWith s s = true.
Proof. apply startsWith_iff. exists EmptyString. rewrite append_nil_r. reflexivity. Qed.

Lemma startsWith_app_l (s t a : string) :
  Js.startsWith s a = true -> Js.startsWith (s +:+ t) a = true.
Proof.
  rewrite !startsWith_iff. intros [u ->]. exists (u +:+ t).
  apply app_assoc_string.
Qed.

Lemma isPathAllowed_guarded (filePath : string) :
  FSAdapter.isPathAllowed allowedPaths filePath = true ->
  Workspace.guarded allowedPaths (FSAdapter.fileKey filePath) = true.
Proof.
  unfold FSAdapter.isPathAllowed, Workspace.guarded, FSAdapter.fileKey.
  destruct (_ || _); [discriminate|].
  rewrite !existsb_exists. intros [a [Hin Ha]]. exists a. split; [assumption|].
  apply orb_true_iff in Ha as [Ha|Ha]; [assumption|].
  apply String.eqb_eq in Ha. rewrite Ha. apply startsWith_refl.
Qed.

Lemma guarded_app (key t : string) :
  Workspace.guarded allowedPaths key = true ->
  Workspace.guarded allowedPaths (key +:+ t) = true.
Proof.
  unfold Workspace.guarded. rewrite !existsb_exists.
  intros [a [Hin Ha]]. exists a. split; [assumption | apply startsWith_app_l; assumption].
Qed.

Lemma unguarded_ne (filePath key : string) :
  FSAdapter.isPathAllowed allowedPaths filePath = true ->
  Workspace.guarded allowedPaths key = false ->
  key <> FSAdapter.fileKey filePath /\ key <> FSAdapter.fileKey filePath +:+ ".tmp".
Proof.
  intros Hallowed Hkey. apply isPathAllowed_guarded in Hallowed.
  split; intros ->; [|apply (guarded_app _ ".tmp") in Hallowed]; congruence.
Qed.

Lemma writeFile_frame (fs fs' : gmap string string) (filePath c key : string) :
  FSAdapter.writeFile allowedPaths fs filePath c = Ok fs' ->
  Workspace.guarded allowedPaths key = false ->
  fs' !! key = fs !! key.
Proof.
  unfold FSAdapter.writeFile.
  destruct (FSAdapter.isPathAllowed allowedPaths filePath) eqn:Hallowed; [|discriminate].
  intros H Hkey. injection H as <-.
  destruct (unguarded_ne _ _ Hallowed Hkey) as [Hne Hne'].
  rewrite lookup_insert_ne, lookup_delete_ne by congruence. reflexivity.
Qed.

Lemma deleteFile_frame (fs fs' : gmap string string) (filePath key : string) :
  FSAdapter.deleteFile allowedPaths fs filePath = Ok fs' ->
  Workspace.guarded allowedPaths key = false ->
  fs' !! key = fs !! key.
Proof.
  unfold FSAdapter.deleteFile.
  destruct (FSAdapter.isPathAllowed allowedPaths filePath) eqn:Hallowed; [|discriminate].
  destruct (fs !! FSAdapter.fileKey filePath); [|discriminate].
  intros H Hkey. injection H as <-.
  destruct (unguarded_ne _ _ Hallowed Hkey) as [Hne _].
  rewrite lookup_delete_ne by congruence. reflexivity.
Qed.

Lemma renameFile_frame (fs fs' : gmap string string) (oldPath newPath key : string) :
  FSAdapter.renameFile allowedPaths fs oldPath newPath = Ok fs' ->
  Workspace.guarded allowedPaths key = false ->
  fs' !! key = fs !! key.
Proof.
  unfold FSAdapter.renameFile.
  destruct (FSAdapter.isPathAllowed allowedPaths oldPath) eqn:Hold; [|discriminate].
  destruct (FSAdapter.isPathAllowed allowedPaths newPath) eqn:Hnew; [|discriminate].
  cbn [andb]. destruct (fs !! FSAdapter.fileKey oldPath); [|discriminate].
  intros H Hkey. injection H as <-.
  destruct (unguarded_ne _ _ Hold Hkey) as [Hne _].
  destruct (unguarded_ne _ _ Hnew Hkey) as [Hne' _].
  rewrite lookup_insert_ne, lookup_delete_ne by congruence. reflexivity.
Qed.

Lemma applyFileChange_frame (fs fs' : gmap string string) (change : FileChange)
    (options : ApplyOptions) (key : string) :
  TransactionService.applyFileChange allowedPaths fs change options = Ok fs' ->
  Workspace.guarded allowedPaths key = false ->
  fs' !! key = fs !! key.
Proof.
  unfold TransactionService.applyFileChange, TransactionService.applyUpdate,
    TransactionService.insertAtLine, TransactionService.applyDiff.
  intros H Hkey.
  destruct (op change).
  - eapply writeFile_frame; eassumption.
  - destruct (applyMethod change).
    + destruct (negb _); discriminate.
    + destruct (negb _); [discriminate|]. eapply writeFile_frame; eassumption.
    + destruct (insertAtLine change); [|discriminate].
      destruct (negb _); [discriminate|].
      destruct (FSAdapter.readFile _ _ _); [|discriminate].
      eapply writeFile_frame; eassumption.
  - eapply deleteFile_frame; eassumption.
  - destruct (negb _); [discriminate|]. eapply renameFile_frame; eassumption.
Qed.

Lemma restoreFile_frame (fs : gmap string string) (b : TransactionService.BackupFile)
    (key : string) :
  Workspace.guarded allowedPaths key = false ->
  TransactionService.restoreFile allowedPaths fs b !! key = fs !! key.
Proof.
  intros Hkey. unfold TransactionService.restoreFile.
  destruct (TransactionService.existed b).
  - destruct (FSAdapter.writeFile _ _ _ _) eqn:Hw; [|reflexivity].
    eapply writeFile_frame; eassumption.
  - destruct (FSAdapter.exists_ _ _ _); [|reflexivity].
    destruct (FSAdapter.deleteFile _ _ _) eqn:Hd; [|reflexivity].
    eapply deleteFile_frame; eassumption.
Qed.

Lemma restoreFiles_frame (bs : list TransactionService.BackupFile)
    (fs : gmap string string) (key : string) :
  Workspace.guarded allowedPaths key = false ->
  fold_left (TransactionService.restoreFile allowedPaths) bs fs !! key = fs !! key.
Proof.
  intros Hkey. revert fs. induction bs as [|b bs IH]; intros fs; [reflexivity|].
  cbn [fold_left]. rewrite IH. apply restoreFile_frame. assumption.
Qed.

Lemma applyChanges_frame (txnId : string) (options : ApplyOptions) (total : nat)
    (changes : list loc) (key : string) :
  Workspace.guarded allowedPaths key = false ->
  forall index applied errs st,
    TransactionService.fs
      (snd (TransactionService.applyChanges allowedPaths txnId options total index
              changes applied errs st)) !! key
    = TransactionService.fs st !! key.
Proof.
  intros Hkey. induction changes as [|l changes IH]; intros index applied errs st;
    [reflexivity|].
  cbn [TransactionService.applyChanges].
  destruct (TransactionService.applyFileChange _ _ _ _) as [fs'|message] eqn:Happly.
  - rewrite IH. cbn. eapply applyFileChange_frame; eassumption.
  - destruct (negb (dryRun options)).
    + unfold TransactionService.rollbackTransaction. cbn.
      destruct (TransactionService.backups st !! txnId); [|reflexivity].
      cbn. apply restoreFiles_frame. assumption.
    + rewrite IH. reflexivity.
Qed.

End Containment.

(** X1. A transaction, however it ends, leaves every file whose key does
    not start with an allow-list entry exactly as it was. *)
Theorem executeTransaction_contained (allowedPaths : list string) (etag : string -> string)
    (txnId planId : string) (changes : list loc) (options : ApplyOptions)
    (st : TransactionService.State) (key : string) :
  Workspace.guarded allowedPaths key = false ->
  TransactionService.fs
    (snd (TransactionService.executeTransaction allowedPaths etag txnId planId changes
            options st)) !! key
  = TransactionService.fs st !! key.
Proof.
  intros Hkey. unfold TransactionService.executeTransaction.
  set (st0 := {| TransactionService.fs := TransactionService.fs st;
                 TransactionService.heap := TransactionService.heap st;
                 TransactionService.activeTransactions := _;
                 TransactionService.backups := TransactionService.backups st;
                 TransactionService.events := TransactionService.events st |}).
  set (st1 := if createBackups options then _ else st0).
  assert (Hfs : TransactionService.fs st1 = TransactionService.fs st)
    by (subst st1; destruct (createBackups options); reflexivity).
  destruct (TransactionService.validateChanges _ _ _ _) as [[results h2] evs].
  destruct (existsb _ results); [cbn; rewrite Hfs; reflexivity|].
  match goal with
  | |- context [TransactionService.applyChanges ?a ?t ?o ?n ?i ?c ?ap ?er ?s] =>
      pose proof (applyChanges_frame a t o n c key Hkey i ap er s) as Happly;
      destruct (TransactionService.applyChanges a t o n i c ap er s)
        as [[[applied errs]|thrown] st3]
  end; cbn [snd] in *; cbn; rewrite Happly; cbn; rewrite Hfs; reflexivity.
Qed.

Lemma executeTransaction_contained_witness :
  TransactionService.fs
    (snd (TransactionService.executeTransaction FSAdapter.defaultAllowedPaths Samples.etag
            "txn-1" "plan-1" [0; 1] Samples.withBackups
            (Samples.fresh Samples.withOutsider Samples.updateThenFail))) !! "etc/passwd"
  = Some "root".
Proof.
  rewrite (executeTransaction_contained FSAdapter.defaultAllowedPaths Samples.etag
             "txn-1" "plan-1" [0; 1] Samples.withBackups
             (Samples.fresh Samples.withOutsider Samples.updateThenFail) "etc/passwd" eq_refl).
  reflexivity.
Defined.

(** X2. A batch leaves every file whose key does not start with an
    allow-list entry exactly as it was. *)
Theorem batchOperation_contained (allowedPaths : list string) (fs : gmap string string)
    (operations : list Batch.Operation) (key : string) :
  Workspace.guarded allowedPaths key = false ->
  snd (Batch.batchOperation allowedPaths fs operations) !! key = fs !! key.
Proof.
  intros Hkey. unfold Batch.batchOperation. revert fs.
  induction operations as [|o operations IH]; intros fs; [reflexivity|].
  cbn [Batch.batchOperationWith].
  destruct (Batch.runOperationWith _ _ _ _ fs o) as [r fs1] eqn:Hrun.
  specialize (IH fs1).
  destruct (Batch.batchOperationWith _ _ _ _ fs1 operations) as [rs fs2].
  cbn [snd] in *. rewrite IH.
  unfold Batch.runOperationWith, Batch.fsRead, Batch.fsWrite, Batch.fsDelete in Hrun.
  destruct (Batch.type o).
  - destruct (FSAdapter.readFile _ _ _); injection Hrun as _ <-; reflexivity.
  - destruct (FSAdapter.writeFile _ _ _ _) eqn:Hw; injection Hrun as _ <-;
      [eapply writeFile_frame; eassumption | reflexivity].
  - destruct (FSAdapter.deleteFile _ _ _) eqn:Hd; injection Hrun as _ <-;
      [eapply deleteFile_frame; eassumption | reflexivity].
  - injection Hrun as _ <-. reflexivity.
Qed.

Lemma batchOperation_contained_witness :
  snd (Batch.batchOperation FSAdapter.defaultAllowedPaths Samples.withOutsider
         Samples.batchOps) !! "etc/passwd"
  = Some "root".
Proof.
  rewrite (batchOperation_contained FSAdapter.defaultAllowedPaths Samples.withOutsider
             Samples.batchOps "etc/passwd" eq_refl).
  reflexivity.
Defined.

(** ** What a transaction does to its own records *)

Section TransactionRecords.

Variable allowedPaths : list string.
Variable etag : string -> string.

(** Validation can only turn a [diff] change into a [replaceFile] one. *)
Lemma validateChanges_heap (fs : gmap string string) (changes : list loc) (l : loc) :
  forall h,
    snd (fst (TransactionService.validateChanges allowedPaths fs changes h)) l = h l
    \/ (applyMethod (h l) = Diff
        /\ In l changes
        /\ snd (fst (TransactionService.validateChanges allowedPaths fs changes h)) l
           = TransactionService.setApplyMethod ReplaceFile (h l)).
Proof.
  induction changes as [|l0 changes IH]; intros h; [left; reflexivity|].
  cbn [TransactionService.validateChanges].
  assert (Hstep :
    snd (fst (TransactionService.validateChange allowedPaths fs l0 h)) l = h l
    \/ (applyMethod (h l) = Diff /\ l = l0
        /\ snd (fst (TransactionService.validateChange allowedPaths fs l0 h)) l
           = TransactionService.setApplyMethod ReplaceFile (h l))).
  { unfold TransactionService.validateChange.
    destruct (negb _); [left; reflexivity|].
    destruct (match op (h l0) with OpUpdate => _ | _ => _ end); [|left; reflexivity].
    destruct (applyMethod (h l0)) eqn:Hmethod; try (left; reflexivity).
    destruct (Js.truthy (diff (h l0))); [|left; reflexivity].
    destruct (TransactionService.validateDiff _); [left; reflexivity|].
    assert (Hstore :
      TransactionService.store h l0 (TransactionService.setApplyMethod ReplaceFile (h l0)) l
      = h l
      \/ (applyMethod (h l) = Diff /\ l = l0
          /\ TransactionService.store h l0
               (TransactionService.setApplyMethod ReplaceFile (h l0)) l
             = TransactionService.setApplyMethod ReplaceFile (h l))).
    { unfold TransactionService.store. destruct (Nat.eqb_spec l l0) as [->|_]; auto. }
    destruct (negb (Js.truthy (content (h l0)))); exact Hstore. }
  destruct (TransactionService.validateChange allowedPaths fs l0 h) as [[r h1] evs1].
  specialize (IH h1).
  destruct (TransactionService.validateChanges allowedPaths fs changes h1) as [[rs h2] evs2].
  cbn [fst snd] in *.
  destruct Hstep as [Hstep|[Hmethod [-> Hstep]]].
  - rewrite Hstep in IH. destruct IH as [IH|[Hmethod [Hin IH]]]; [left; assumption|].
    right. split; [assumption|]. split; [right; assumption | assumption].
  - right. split; [assumption|]. split; [left; reflexivity|].
    destruct IH as [IH|[Hmethod' _]]; [rewrite IH; assumption|].
    rewrite Hstep in Hmethod'. discriminate Hmethod'.
Qed.

Lemma validateChanges_file (fs : gmap string string) (changes : list loc)
    (h : loc -> FileChange) (l : loc) :
  file (snd (fst (TransactionService.validateChanges allowedPaths fs changes h)) l)
  = file (h l)
  /\ op (snd (fst (TransactionService.validateChanges allowedPaths fs changes h)) l)
     = op (h l).
Proof.
  destruct (validateChanges_heap fs changes l h) as [->|[_ [_ ->]]]; auto.
Qed.

Lemma applyChanges_backups (txnId : string) (options : ApplyOptions) (total : nat)
    (changes : list loc) :
  forall index applied errs st,
    TransactionService.backups
      (snd (TransactionService.applyChanges allowedPaths txnId options total index
              changes applied errs st))
    = TransactionService.backups st.
Proof.
  induction changes as [|l changes IH]; intros index applied errs st; [reflexivity|].
  cbn [TransactionService.applyChanges].
  destruct (TransactionService.applyFileChange _ _ _ _) as [fs'|message].
  - rewrite IH. reflexivity.
  - destruct (negb (dryRun options)).
    + unfold TransactionService.rollbackTransaction. cbn.
      destruct (TransactionService.backups st !! txnId); reflexivity.
    + rewrite IH. reflexivity.
Qed.

(** Outside dry run the loop either applies every change or throws. *)
Lemma applyChanges_all_applied (txnId : string) (options : ApplyOptions) (total : nat)
    (changes : list loc) :
  dryRun options = false ->
  forall index applied errs st applied' errs' st',
    TransactionService.applyChanges allowedPaths txnId options total index changes
      applied errs st = (Ok (applied', errs'), st') ->
    errs' = errs
    /\ applied' = applied ++ map (fun l => file (TransactionService.heap st l)) changes.
Proof.
  intros Hdry. induction changes as [|l changes IH];
    intros index applied errs st applied' errs' st' Hrun.
  - cbn in Hrun. injection Hrun as <- <- <-. rewrite app_nil_r. auto.
  - cbn [TransactionService.applyChanges] in Hrun. rewrite Hdry in Hrun. cbn [negb] in Hrun.
    destruct (TransactionService.applyFileChange _ _ _ _) as [fs'|message].
    + apply IH in Hrun as [-> ->]. cbn. rewrite <- app_assoc. auto.
    + destruct (TransactionService.rollbackTransaction _ _ _); discriminate.
Qed.

Lemma journalOf_update (txnId planId : string) (st : TransactionService.State)
    (f : TransactionService.TransactionJournal -> TransactionService.TransactionJournal) :
  (forall j, TransactionService.journalId (f j) = TransactionService.journalId j
             /\ TransactionService.planId (f j) = TransactionService.planId j) ->
  Workspace.journalOf txnId planId st ->
  Workspace.journalOf txnId planId (TransactionService.updateJournal txnId f st).
Proof.
  intros Hf [j [Hj [Hid Hplan]]]. exists (f j). cbn.
  rewrite lookup_alter_eq, Hj. destruct (Hf j) as [-> ->]. auto.
Qed.

Lemma applyChanges_journal (txnId planId : string) (options : ApplyOptions) (total : nat)
    (changes : list loc) :
  forall index applied errs st,
    Workspace.journalOf txnId planId st ->
    Workspace.journalOf txnId planId
      (snd (TransactionService.applyChanges allowedPaths txnId options total index
              changes applied errs st)).
Proof.
  induction changes as [|l changes IH]; intros index applied errs st HJ; [exact HJ|].
  cbn [TransactionService.applyChanges].
  destruct (TransactionService.applyFileChange _ _ _ _) as [fs'|message].
  - apply IH. apply journalOf_update; [intros j; cbn; auto|]. exact HJ.
  - assert (HJ2 : Workspace.journalOf txnId planId
             (TransactionService.updateJournal txnId
                (TransactionService.pushOperation
                   {| TransactionService.type := TransactionService.Apply;
                      TransactionService.operationFile := file (TransactionService.heap st l);
                      TransactionService.success := false;
                      TransactionService.operationError :=
                        Some ("Failed to apply change to "
                              +:+ file (TransactionService.heap st l) +:+ ": " +:+ message) |})
                (TransactionService.emit
                   (TransactionService.ApplyProgress txnId index total
                      (file (TransactionService.heap st l))
                      (op (TransactionService.heap st l))) st)))
      by (apply journalOf_update; [intros j; cbn; auto | exact HJ]).
    destruct (negb (dryRun options)).
    + unfold TransactionService.rollbackTransaction.
      destruct (TransactionService.backups _ !! txnId); [|exact HJ2].
      cbn [snd]. apply journalOf_update; [intros j; cbn; auto|].
      apply journalOf_update; [intros j; cbn; auto|]. exact HJ2.
    + apply IH. exact HJ2.
Qed.

End TransactionRecords.

Lemma applyChanges_no_backup (allowedPaths : list string) (txnId : string)
    (options : ApplyOptions) (total : nat) (changes : list loc) :
  forall index applied errs st message st',
    TransactionService.backups st !! txnId = None ->
    TransactionService.applyChanges allowedPaths txnId options total index changes
      applied errs st = (Err message, st') ->
    message = "No backup found for transaction " +:+ txnId.
Proof.
  induction changes as [|l changes IH]; intros index applied errs st message st' Hnone Hrun;
    [discriminate|].
  cbn [TransactionService.applyChanges] in Hrun.
  destruct (TransactionService.applyFileChange _ _ _ _) as [fs'|failure].
  - eapply IH; [|exact Hrun]. exact Hnone.
  - destruct (negb (dryRun options)).
    + unfold TransactionService.rollbackTransaction in Hrun. cbn in Hrun.
      rewrite Hnone in Hrun. injection Hrun as <- _. reflexivity.
    + eapply IH; [|exact Hrun]. exact Hnone.
Qed.

Lemma journalOf_setStatus (txnId planId : string) (s : TransactionService.Status)
    (st : TransactionService.State) :
  Workspace.journalOf txnId planId st ->
  exists j,
    TransactionService.activeTransactions
      (TransactionService.updateJournal txnId (TransactionService.setStatus s) st) !! txnId
    = Some j
    /\ TransactionService.journalId j = txnId
    /\ TransactionService.planId j = planId
    /\ TransactionService.status j = s.
Proof.
  intros [j [Hj [Hid Hplan]]]. exists (TransactionService.setStatus s j).
  cbn. rewrite lookup_alter_eq, Hj. auto.
Qed.

Section TransactionOutcomes.

Variable allowedPaths : list string.
Variable etag : string -> string.

(** X3. When [executeTransaction] resolves outside dry run, it reports
    success, no error, and the file of every change, in order, as
    applied. *)
Theorem executeTransaction_resolved (txnId planId : string) (changes : list loc)
    (options : ApplyOptions) (st st' : TransactionService.State)
    (r : TransactionService.TransactionResult) :
  dryRun options = false ->
  TransactionService.executeTransaction allowedPaths etag txnId planId changes options st
  = (Ok r, st') ->
  TransactionService.resultSuccess r = true
  /\ TransactionService.errors r = []
  /\ TransactionService.appliedFiles r
     = map (fun l => file (TransactionService.heap st l)) changes.
Proof.
  intros Hdry. unfold TransactionService.executeTransaction.
  set (st0 := {| TransactionService.fs := TransactionService.fs st;
                 TransactionService.heap := TransactionService.heap st;
                 TransactionService.activeTransactions := _;
                 TransactionService.backups := TransactionService.backups st;
                 TransactionService.events := TransactionService.events st |}).
  set (st1 := if createBackups options then _ else st0).
  assert (Hfs : TransactionService.fs st1 = TransactionService.fs st)
    by (subst st1; destruct (createBackups options); reflexivity).
  assert (Hheap : TransactionService.heap st1 = TransactionService.heap st)
    by (subst st1; destruct (createBackups options); reflexivity).
  rewrite Hfs, Hheap.
  pose proof (fun l => validateChanges_file allowedPaths (TransactionService.fs st) changes
                         (TransactionService.heap st) l) as Hfile.
  destruct (TransactionService.validateChanges _ _ _ _) as [[results h2] evs].
  cbn [fst snd] in Hfile.
  destruct (existsb _ results); [discriminate|].
  match goal with
  | |- context [TransactionService.applyChanges ?a ?t ?o ?n ?i ?c ?ap ?er ?s] =>
      pose proof (applyChanges_all_applied a t o n c Hdry i ap er s) as Happly;
      destruct (TransactionService.applyChanges a t o n i c ap er s)
        as [[[applied errs]|thrown] st3]
  end; [|discriminate].
  destruct (Happly applied errs st3 eq_refl) as [-> ->].
  intros H. injection H as <- _. cbn. split; [reflexivity|]. split; [reflexivity|].
  apply map_ext. intros l. apply Hfile.
Qed.

(** X4. After [executeTransaction] the journal of the transaction is in
    the service under its id and plan id, and its status is [completed]
    when the call resolved and [failed] when it rejected: a rollback
    does not leave it [rolled_back]. *)
Theorem executeTransaction_journal_status (txnId planId : string) (changes : list loc)
    (options : ApplyOptions) (st : TransactionService.State) :
  exists j,
    TransactionService.getTransactionStatus txnId
      (snd (TransactionService.executeTransaction allowedPaths etag txnId planId changes
              options st)) = Some j
    /\ TransactionService.journalId j = txnId
    /\ TransactionService.planId j = planId
    /\ TransactionService.status j
       = match fst (TransactionService.executeTransaction allowedPaths etag txnId planId
                      changes options st) with
         | Ok _ => TransactionService.Completed
         | Err _ => TransactionService.Failed
         end.
Proof.
  unfold TransactionService.executeTransaction, TransactionService.getTransactionStatus.
  set (st0 := {| TransactionService.fs := TransactionService.fs st;
                 TransactionService.heap := TransactionService.heap st;
                 TransactionService.activeTransactions := _;
                 TransactionService.backups := TransactionService.backups st;
                 TransactionService.events := TransactionService.events st |}).
  set (st1 := if createBackups options then _ else st0).
  assert (HJ1 : Workspace.journalOf txnId planId st1).
  { subst st1 st0. destruct (createBackups options); eexists;
      (split; [cbn; apply lookup_insert_eq | split; reflexivity]). }
  destruct (TransactionService.validateChanges _ _ _ _) as [[results h2] evs].
  set (st2 := {| TransactionService.fs := TransactionService.fs st1;
                 TransactionService.heap := h2;
                 TransactionService.activeTransactions :=
                   TransactionService.activeTransactions st1;
                 TransactionService.backups := TransactionService.backups st1;
                 TransactionService.events := TransactionService.events st1 ++ evs |}).
  assert (HJ2 : Workspace.journalOf txnId planId st2) by exact HJ1.
  destruct (existsb _ results).
  - cbn [fst snd]. exact (journalOf_setStatus txnId planId TransactionService.Failed st2 HJ2).
  - match goal with
    | |- context [TransactionService.applyChanges ?a ?t ?o ?n ?i ?c ?ap ?er ?s] =>
        pose proof (applyChanges_journal a t planId o n c i ap er s HJ2) as HJ3;
        destruct (TransactionService.applyChanges a t o n i c ap er s)
          as [[[applied errs]|thrown] st3]
    end; cbn [fst snd] in *.
    + exact (journalOf_setStatus txnId planId TransactionService.Completed st3 HJ3).
    + exact (journalOf_setStatus txnId planId TransactionService.Failed st3 HJ3).
Qed.

(** X5. A transaction run without backups is never rolled back: when it
    rejects, it is with the validation errors or with the complaint that
    no backup was found for it. *)
Theorem executeTransaction_without_backups (txnId planId : string) (changes : list loc)
    (options : ApplyOptions) (st st' : TransactionService.State) (message : string) :
  createBackups options = false ->
  TransactionService.backups st !! txnId = None ->
  TransactionService.executeTransaction allowedPaths etag txnId planId changes options st
  = (Err message, st') ->
  message
  = TransactionService.validationMessage
      (fst (fst (TransactionService.validateChanges allowedPaths (TransactionService.fs st)
                   changes (TransactionService.heap st))))
  \/ message = "No backup found for transaction " +:+ txnId.
Proof.
  intros Hnb Hnone. unfold TransactionService.executeTransaction. rewrite Hnb.
  destruct (TransactionService.validateChanges _ _ _ _) as [[results h2] evs].
  cbn [TransactionService.fs TransactionService.heap fst].
  destruct (existsb _ results).
  - intros H. injection H as <- _. left. reflexivity.
  - match goal with
    | |- context [TransactionService.applyChanges ?a ?t ?o ?n ?i ?c ?ap ?er ?s] =>
        pose proof (applyChanges_no_backup a t o n c i ap er s) as Happly;
        destruct (TransactionService.applyChanges a t o n i c ap er s)
          as [[[applied errs]|thrown] st3]
    end; [discriminate|].
    intros H. injection H as <- _. right. eapply Happly; [exact Hnone | reflexivity].
Qed.

End TransactionOutcomes.

Lemma executeTransaction_resolved_witness :
  exists st',
    TransactionService.executeTransaction FSAdapter.defaultAllowedPaths Samples.etag
      "txn-1" "plan-1" [0] Samples.withBackups (Samples.fresh ∅ Samples.createNew)
    = (Ok {| TransactionService.resultSuccess := true;
             TransactionService.appliedFiles := ["src/New.ts"];
             TransactionService.errors := [] |}, st')
    /\ TransactionService.fs st' !! "src/New.ts" = Some "export const x = 1;".
Proof.
  destruct (TransactionService.executeTransaction FSAdapter.defaultAllowedPaths Samples.etag
              "txn-1" "plan-1" [0] Samples.withBackups (Samples.fresh ∅ Samples.createNew))
    as [[r|m] st'] eqn:Hrun; [|vm_compute in Hrun; discriminate Hrun].
  destruct (executeTransaction_resolved FSAdapter.defaultAllowedPaths Samples.etag "txn-1" "plan-1" [0] Samples.withBackups
              (Samples.fresh ∅ Samples.createNew) st' r eq_refl Hrun) as [Hs [He Ha]].
  exists st'. split.
  - destruct r as [s a e]. cbn in Hs, He, Ha. subst. reflexivity.
  - vm_compute in Hrun. injection Hrun as _ <-. reflexivity.
Defined.

Lemma executeTransaction_without_backups_witness :
  exists st',
    TransactionService.executeTransaction FSAdapter.defaultAllowedPaths Samples.etag
      "txn-1" "plan-1" [0; 1] Samples.withoutBackups
      (Samples.fresh Samples.onlyB Samples.updateThenFail)
    = (Err "No backup found for transaction txn-1", st')
    /\ TransactionService.fs st' !! "src/b.ts" = Some "new".
Proof.
  destruct (TransactionService.executeTransaction FSAdapter.defaultAllowedPaths Samples.etag
              "txn-1" "plan-1" [0; 1] Samples.withoutBackups
              (Samples.fresh Samples.onlyB Samples.updateThenFail))
    as [[r|m] st'] eqn:Hrun; [vm_compute in Hrun; discriminate Hrun|].
  destruct (executeTransaction_without_backups FSAdapter.defaultAllowedPaths Samples.etag
              "txn-1" "plan-1" [0; 1]
              Samples.withoutBackups (Samples.fresh Samples.onlyB Samples.updateThenFail)
              st' m eq_refl eq_refl Hrun) as [Hm|Hm].
  - vm_compute in Hrun. injection Hrun as <- _. vm_compute in Hm. discriminate Hm.
  - exists st'. split; [rewrite Hm; reflexivity|].
    vm_compute in Hrun. injection Hrun as _ <-. reflexivity.
Defined.

(** ** What a rollback restores *)

Section RollbackRestores.

Variable allowedPaths : list string.
Variable etag : string -> string.
Variable fs0 : gmap string string.






End RollbackRestores.




(** ** Changes that cannot be applied *)

Lemma validateDiff_truthy (d : option string) :
  TransactionService.validateDiff (Js.orEmpty d) = true -> Js.truthy d = true.
Proof.
  destruct d as [[|c s]|]; [discriminate | reflexivity | discriminate].
Qed.

(** Validation leaves a change whose diff passes the structural check as
    it is. *)
Lemma validateChanges_keeps (allowedPaths : list string) (fs : gmap string string)
    (changes : list loc) (l : loc) :
  forall h,
    TransactionService.validateDiff (Js.orEmpty (diff (h l))) = true ->
    snd (fst (TransactionService.validateChanges allowedPaths fs changes h)) l = h l.
Proof.
  induction changes as [|l0 changes IH]; intros h Hdiff; [reflexivity|].
  cbn [TransactionService.validateChanges].
  assert (Hstep :
    snd (fst (TransactionService.validateChange allowedPaths fs l0 h)) l = h l).
  { unfold TransactionService.validateChange.
    destruct (negb _); [reflexivity|].
    destruct (match op (h l0) with OpUpdate => _ | _ => _ end); [|reflexivity].
    destruct (applyMethod (h l0)); try reflexivity.
    destruct (Js.truthy (diff (h l0))); [|reflexivity].
    destruct (TransactionService.validateDiff (Js.orEmpty (diff (h l0)))) eqn:Hd0;
      [reflexivity|].
    assert (Hne : Nat.eqb l l0 = false).
    { apply Nat.eqb_neq. intros ->. rewrite Hdiff in Hd0. discriminate Hd0. }
    destruct (negb _); cbn; unfold TransactionService.store; rewrite Hne; reflexivity. }
  destruct (TransactionService.validateChange allowedPaths fs l0 h) as [[r h1] evs1].
  cbn [fst snd] in Hstep.
  specialize (IH h1). rewrite Hstep in IH. specialize (IH Hdiff).
  destruct (TransactionService.validateChanges allowedPaths fs changes h1) as [[rs h2] evs2].
  cbn [fst snd] in *. congruence.
Qed.

(** In the apply loop, a change that cannot be applied ends the loop
    outside dry run, and is reported among the errors in dry run. *)
Lemma applyChanges_reports (allowedPaths : list string) (txnId : string)
    (options : ApplyOptions) (total : nat) (changes : list loc) (h : loc -> FileChange)
    (l : loc) (message : string) :
  (forall fs, TransactionService.applyFileChange allowedPaths fs (h l) options
              = Err message) ->
  forall index applied errs st applied' errs' st',
    TransactionService.heap st = h ->
    TransactionService.applyChanges allowedPaths txnId options total index changes
      applied errs st = (Ok (applied', errs'), st') ->
    (forall e, In e errs -> In e errs')
    /\ (In l changes ->
        dryRun options = true
        /\ In ("Failed to apply change to " +:+ file (h l) +:+ ": " +:+ message) errs').
Proof.
  intros Hfail.
  induction changes as [|l0 changes IH];
    intros index applied errs st applied' errs' st' Hheap Hrun.
  - injection Hrun as <- <- <-. split; [auto | intros []].
  - cbn [TransactionService.applyChanges] in Hrun. rewrite Hheap in Hrun.
    destruct (TransactionService.applyFileChange _ _ (h l0) options) as [fs'|m] eqn:Happly.
    + apply IH in Hrun as [Hmono Hin]; [|exact Hheap]. split; [exact Hmono|].
      intros [->|Hl]; [|auto]. rewrite Hfail in Happly. discriminate Happly.
    + destruct (dryRun options) eqn:Hdry; cbn [negb] in Hrun.
      * apply IH in Hrun as [Hmono Hin]; [|exact Hheap]. split.
        -- intros e He. apply Hmono. apply in_or_app. left. assumption.
        -- intros [->|Hl]; [|auto]. split; [reflexivity|].
           apply Hmono. apply in_or_app. right. left.
           rewrite Hfail in Happly. injection Happly as <-. reflexivity.
      * destruct (TransactionService.rollbackTransaction _ _); discriminate Hrun.
Qed.

(** X7. An update whose apply method is [diff] and whose diff passes the
    structural check is never applied. Outside dry run a transaction
    that holds one rejects. A dry run that holds one rejects only when
    the validation phase fails, with the validation errors; otherwise
    it resolves without success and reports that applying a diff is not
    implemented. *)
Theorem executeTransaction_diff_update_fails (allowedPaths : list string)
    (etag : string -> string) (txnId planId : string) (changes : list loc)
    (options : ApplyOptions) (st : TransactionService.State) (l : loc) :
  In l changes ->
  op (TransactionService.heap st l) = OpUpdate ->
  applyMethod (TransactionService.heap st l) = Diff ->
  TransactionService.validateDiff (Js.orEmpty (diff (TransactionService.heap st l))) = true ->
  let results :=
    fst (fst (TransactionService.validateChanges allowedPaths (TransactionService.fs st)
                changes (TransactionService.heap st))) in
  match fst (TransactionService.executeTransaction allowedPaths etag txnId planId changes
               options st) with
  | Ok r =>
      dryRun options = true
      /\ existsb (fun v => negb (valid v)) results = false
      /\ TransactionService.resultSuccess r = false
      /\ In ("Failed to apply change to " +:+ file (TransactionService.heap st l)
             +:+ ": Diff application not yet implemented - use replaceFile method")
            (TransactionService.errors r)
  | Err message =>
      dryRun options = true ->
      existsb (fun v => negb (valid v)) results = true
      /\ message = TransactionService.validationMessage results
  end.
Proof.
  intros Hin Hop Hmethod Hdiff. cbn zeta.
  unfold TransactionService.executeTransaction.
  pose proof (validateChanges_keeps allowedPaths (TransactionService.fs st) changes l
                (TransactionService.heap st) Hdiff) as Hkeep.
  set (st0 := {| TransactionService.fs := TransactionService.fs st;
                 TransactionService.heap := TransactionService.heap st;
                 TransactionService.activeTransactions := _;
                 TransactionService.backups := TransactionService.backups st;
                 TransactionService.events := TransactionService.events st |}).
  set (st1 := if createBackups options then _ else st0).
  assert (Hfs : TransactionService.fs st1 = TransactionService.fs st)
    by (subst st1; destruct (createBackups options); reflexivity).
  assert (Hheap : TransactionService.heap st1 = TransactionService.heap st)
    by (subst st1; destruct (createBackups options); reflexivity).
  rewrite Hfs, Hheap.
  destruct (TransactionService.validateChanges _ _ _ _) as [[results h2] evs].
  cbn [fst snd] in *.
  destruct (existsb _ results) eqn:Hgate; [cbn; auto|].
  assert (Hfail : forall fs0,
            TransactionService.applyFileChange allowedPaths fs0 (h2 l) options
            = Err "Diff application not yet implemented - use replaceFile method").
  { intros fs0. rewrite Hkeep. unfold TransactionService.applyFileChange. rewrite Hop.
    unfold TransactionService.applyUpdate. rewrite Hmethod.
    rewrite (validateDiff_truthy _ Hdiff). reflexivity. }
  match goal with
  | |- context [TransactionService.applyChanges ?a ?t ?o ?n ?i ?c ?ap ?er ?s] =>
      pose proof (applyChanges_reports a t o n c h2 l _ Hfail i ap er s) as Hreport;
      pose proof (fun Hdry => applyChanges_dryRun_continues a t o n c Hdry i ap er s)
        as Hcontinues;
      destruct (TransactionService.applyChanges a t o n i c ap er s)
        as [[[applied errs]|thrown] st3]
  end; cbn [fst].
  - destruct (Hreport applied errs st3) as [_ Hl]; [reflexivity | reflexivity|].
    destruct (Hl Hin) as [Hdry Herr]. rewrite Hkeep in Herr. cbn.
    split; [exact Hdry|]. split; [reflexivity|]. split; [|exact Herr].
    destruct errs; [destruct Herr | reflexivity].
  - intros Hdry. destruct (Hcontinues Hdry) as [? [? [? [Hrun _]]]]. discriminate Hrun.
Qed.

Lemma executeTransaction_diff_update_fails_witness :
  exists r st',
    TransactionService.executeTransaction FSAdapter.defaultAllowedPaths Samples.etag
      "txn-1" "plan-1" [0; 1] Samples.dryRunOnly
      (Samples.fresh Samples.onlyB Samples.createThenDiff)
    = (Ok r, st')
    /\ TransactionService.resultSuccess r = false.
Proof.
  pose proof (executeTransaction_diff_update_fails FSAdapter.defaultAllowedPaths
                Samples.etag "txn-1" "plan-1" [0; 1] Samples.dryRunOnly
                (Samples.fresh Samples.onlyB Samples.createThenDiff) 1
                (or_intror (or_introl eq_refl)) eq_refl eq_refl eq_refl) as Hfails.
  cbn zeta in Hfails.
  destruct (TransactionService.executeTransaction FSAdapter.defaultAllowedPaths Samples.etag
              "txn-1" "plan-1" [0; 1] Samples.dryRunOnly
              (Samples.fresh Samples.onlyB Samples.createThenDiff))
    as [[r|m] st'] eqn:Hrun; [|vm_compute in Hrun; discriminate Hrun].
  exists r, st'. split; [reflexivity|]. cbn [fst] in Hfails. tauto.
Defined.

(** ** Broadcasting to the connections *)

Lemma sendAll_filter (connections : list EventEmitter.WebSocket) :
  EventEmitter.sendAll connections
  = (List.filter (fun ws => EventEmitter.isOpen ws && negb (EventEmitter.sendThrows ws))
       connections,
     List.filter (fun ws => negb (EventEmitter.isOpen ws
                                  && negb (EventEmitter.sendThrows ws)))
       connections).
Proof.
  induction connections as [|ws connections IH]; [reflexivity|].
  cbn [EventEmitter.sendAll List.filter]. rewrite IH.
  destruct (EventEmitter.isOpen ws), (EventEmitter.sendThrows ws); reflexivity.
Qed.

Lemma deleteConnections_filter (dead : list EventEmitter.WebSocket) :
  forall connections,
    fold_left EventEmitter.deleteConnection dead connections
    = List.filter
        (fun c => negb (existsb (fun d => Nat.eqb (EventEmitter.socketId c)
                                            (EventEmitter.socketId d)) dead))
        connections.
Proof.
  induction dead as [|d dead IH]; intros connections; cbn [fold_left existsb].
  - induction connections as [|c connections IHc]; [reflexivity|].
    cbn. f_equal. exact IHc.
  - rewrite IH. unfold EventEmitter.deleteConnection.
    induction connections as [|c connections IHc]; [reflexivity|].
    cbn [List.filter].
    destruct (Nat.eqb (EventEmitter.socketId c) (EventEmitter.socketId d));
      cbn [negb orb List.filter]; [exact IHc|].
    destruct (negb _); [f_equal|]; exact IHc.
Qed.

Lemma socketId_inj (connections : list EventEmitter.WebSocket)
    (x y : EventEmitter.WebSocket) :
  NoDup (map EventEmitter.socketId connections) ->
  In x connections -> In y connections ->
  EventEmitter.socketId x = EventEmitter.socketId y -> x = y.
Proof.
  induction connections as [|c connections IH]; intros Hnd Hx Hy Hid; [destruct Hx|].
  cbn [map] in Hnd. apply NoDup_cons in Hnd as [Hc Hnd].
  destruct Hx as [->|Hx], Hy as [->|Hy].
  - reflexivity.
  - exfalso. apply Hc. rewrite Hid. apply list_elem_of_In, in_map, Hy.
  - exfalso. apply Hc. rewrite <- Hid. apply list_elem_of_In, in_map, Hx.
  - apply IH; assumption.
Qed.

(** X8. When the connections are distinct, [broadcast] delivers the
    message to exactly the connections that are open and whose [send]
    does not throw, and these are the connections that remain, in their
    order: every other connection is dropped from the set. *)
Theorem broadcast_keeps_live (connections : list EventEmitter.WebSocket) :
  NoDup (map EventEmitter.socketId connections) ->
  EventEmitter.broadcast connections
  = (List.filter (fun ws => EventEmitter.isOpen ws && negb (EventEmitter.sendThrows ws))
       connections,
     List.filter (fun ws => EventEmitter.isOpen ws && negb (EventEmitter.sendThrows ws))
       connections).
Proof.
  intros Hnd. unfold EventEmitter.broadcast. rewrite sendAll_filter.
  rewrite deleteConnections_filter. f_equal.
  apply filter_ext_in. intros c Hc.
  destruct (EventEmitter.isOpen c && negb (EventEmitter.sendThrows c)) eqn:Hlive.
  - apply negb_true_iff. apply not_true_is_false. intros Hex.
    apply existsb_exists in Hex as [d [Hd Hid]]. apply filter_In in Hd as [Hd Hdead].
    cbn beta in Hdead.
    apply Nat.eqb_eq in Hid.
    rewrite (socketId_inj connections c d Hnd Hc Hd Hid) in Hlive.
    rewrite Hlive in Hdead. discriminate Hdead.
  - apply negb_false_iff. apply existsb_exists. exists c. split.
    + apply filter_In. split; [assumption|]. cbn beta. rewrite Hlive. reflexivity.
    + apply Nat.eqb_refl.
Qed.

Lemma broadcast_keeps_live_witness :
  map EventEmitter.socketId (snd (EventEmitter.broadcast Samples.sockets)) = [1; 4].
Proof.
  rewrite (broadcast_keeps_live Samples.sockets); [reflexivity|].
  vm_compute. repeat constructor; cbn; set_solver.
Defined.

(** ** The file routes *)

Lemma includes_cons_other (c a : ascii) (s sub : string) :
  Ascii.eqb a c = false ->
  Js.includes (String c s) (String a sub) = Js.includes s (String a sub).
Proof.
  intros Hne. cbn [Js.includes Js.startsWith]. rewrite Hne. reflexivity.
Qed.

(** The messages the adapter rejects with mention [not allowed] only
    when the path does. *)
Lemma adapter_message_not_allowed (filePath : string) :
  Js.includes ("Failed to read file: " +:+ filePath) "not allowed"
  = Js.includes filePath "not allowed"
  /\ Js.includes ("Failed to write file: " +:+ filePath) "not allowed"
     = Js.includes filePath "not allowed"
  /\ Js.includes ("Failed to get metadata for: " +:+ filePath) "not allowed"
     = Js.includes filePath "not allowed".
Proof.
  repeat split; repeat rewrite append_cons; rewrite append_nil_l;
    repeat (rewrite includes_cons_other by reflexivity); reflexivity.
Qed.

(** X9. A request for a path the policy forbids is answered by the file
    routes with status 500 and the route's own failure code: the status
    403 with [PATH_FORBIDDEN] is reserved to messages that mention
    [not allowed], which the adapter's messages do only when the path
    itself does. A save leaves the workspace as it was. *)
Theorem files_routes_forbidden (allowedPaths : list string) (etag : string -> string)
    (fs : gmap string string) (filePath body : string) (expectedEtag : option string) :
  filePath <> EmptyString ->
  FSAdapter.isPathAllowed allowedPaths filePath = false ->
  Js.includes filePath "not allowed" = false ->
  FilesRoutes.getContent allowedPaths etag fs (Some filePath)
  = FilesRoutes.ErrorBody 500 "FILE_READ_FAILED" ("Failed to read file: " +:+ filePath)
  /\ FilesRoutes.save allowedPaths etag fs (Some filePath) (Some body) expectedEtag
     = (FilesRoutes.ErrorBody 500 "FILE_SAVE_FAILED" ("Failed to write file: " +:+ filePath),
        fs)
  /\ FilesRoutes.getMetadata allowedPaths etag fs (Some filePath)
     = FilesRoutes.ErrorBody 500 "METADATA_FAILED"
         ("Failed to get metadata for: " +:+ filePath).
Proof.
  intros Hne Hforbidden Hmention.
  destruct (adapter_message_not_allowed filePath) as [Hread [Hwrite Hmeta]].
  assert (Htruthy : Js.truthy (Some filePath) = true).
  { cbn. apply negb_true_iff. apply String.eqb_neq. assumption. }
  unfold FilesRoutes.getContent, FilesRoutes.save, FilesRoutes.getMetadata.
  rewrite Htruthy. cbn [negb Js.orEmpty].
  unfold FSAdapter.readFile, FSAdapter.writeFile, FSAdapter.getFileMetadata,
    FSAdapter.exists_, FilesRoutes.failure.
  rewrite Hforbidden. cbn [andb]. rewrite andb_false_r.
  rewrite Hread, Hwrite, Hmeta, Hmention. auto.
Qed.

Lemma files_routes_forbidden_witness :
  FilesRoutes.getMetadata FSAdapter.defaultAllowedPaths Samples.etag Samples.withOutsider
    (Some "etc/passwd")
  = FilesRoutes.ErrorBody 500 "METADATA_FAILED" "Failed to get metadata for: etc/passwd".
Proof.
  apply (files_routes_forbidden FSAdapter.defaultAllowedPaths Samples.etag
           Samples.withOutsider "etc/passwd" "x" None);
    [discriminate | reflexivity | reflexivity].
Defined.



(** ** Round trips of the adapter *)




(** X12. A rename of a file that can be read onto a file that can be
    read succeeds and replaces the target: the new path then reads as
    the content the old path held, the old path can no longer be read,
    unless both denote the same file, and every other file is as it
    was. *)
Theorem renameFile_moves (allowedPaths : list string) (fs : gmap string string)
    (oldPath newPath c replaced : string) :
  FSAdapter.readFile allowedPaths fs oldPath = Ok c ->
  FSAdapter.readFile allowedPaths fs newPath = Ok replaced ->
  exists fs',
    FSAdapter.renameFile allowedPaths fs oldPath newPath = Ok fs'
    /\ FSAdapter.readFile allowedPaths fs' newPath = Ok c
    /\ (FSAdapter.fileKey oldPath <> FSAdapter.fileKey newPath ->
        FSAdapter.readFile allowedPaths fs' oldPath
        = Err ("Failed to read file: " +:+ oldPath))
    /\ forall key,
         key <> FSAdapter.fileKey oldPath ->
         key <> FSAdapter.fileKey newPath ->
         fs' !! key = fs !! key.
Proof.
  intros Hold Hnew.
  pose proof (readFile_allowed _ _ _ _ Hold) as [Hallowed Hlookup].
  pose proof (readFile_allowed _ _ _ _ Hnew) as [Hallowed' _].
  exists (<[FSAdapter.fileKey newPath := c]> (delete (FSAdapter.fileKey oldPath) fs)).
  unfold FSAdapter.renameFile, FSAdapter.readFile.
  rewrite Hallowed, Hallowed', Hlookup, lookup_insert_eq. cbn [andb].
  split; [reflexivity|]. split; [reflexivity|]. split.
  - intros Hne.
    rewrite lookup_insert_ne by (apply not_eq_sym; assumption).
    rewrite lookup_delete_eq. reflexivity.
  - intros key Hkold Hknew.
    rewrite lookup_insert_ne, lookup_delete_ne by (apply not_eq_sym; assumption).
    reflexivity.
Qed.

Lemma renameFile_moves_witness :
  exists fs',
    FSAdapter.renameFile FSAdapter.defaultAllowedPaths Samples.twoFiles "src/a.ts" "src/b.ts"
    = Ok fs'
    /\ FSAdapter.readFile FSAdapter.defaultAllowedPaths fs' "src/b.ts" = Ok "first"
    /\ FSAdapter.readFile FSAdapter.defaultAllowedPaths fs' "src/a.ts"
       = Err "Failed to read file: src/a.ts".
Proof.
  destruct (renameFile_moves FSAdapter.defaultAllowedPaths Samples.twoFiles "src/a.ts"
              "src/b.ts" "first" "second" eq_refl eq_refl)
    as [fs' [Hrename [Hread [Hgone _]]]].
  exists fs'. split; [assumption|]. split; [assumption|].
  apply Hgone. vm_compute. discriminate.
Defined.

(** X13. A file that can be read exists and can be deleted, once: after
    the delete it neither exists nor can be read, a second delete
    fails, and every other file is as it was. *)
Theorem deleteFile_once (allowedPaths : list string) (fs : gmap string string)
    (filePath c : string) :
  FSAdapter.readFile allowedPaths fs filePath = Ok c ->
  FSAdapter.exists_ allowedPaths fs filePath = true
  /\ exists fs',
       FSAdapter.deleteFile allowedPaths fs filePath = Ok fs'
       /\ FSAdapter.exists_ allowedPaths fs' filePath = false
       /\ FSAdapter.readFile allowedPaths fs' filePath
          = Err ("Failed to read file: " +:+ filePath)
       /\ FSAdapter.deleteFile allowedPaths fs' filePath
          = Err ("Failed to delete file: " +:+ filePath)
       /\ forall key, key <> FSAdapter.fileKey filePath -> fs' !! key = fs !! key.
Proof.
  intros Hread. pose proof (readFile_allowed _ _ _ _ Hread) as [Hallowed Hlookup].
  unfold FSAdapter.exists_, FSAdapter.readFile, FSAdapter.deleteFile.
  rewrite Hallowed, Hlookup. cbn [andb].
  split; [apply bool_decide_eq_true_2; eauto|].
  exists (delete (FSAdapter.fileKey filePath) fs).
  rewrite lookup_delete_eq.
  split; [reflexivity|].
  split; [apply bool_decide_eq_false_2; intros [? ?]; discriminate|].
  split; [reflexivity|]. split; [reflexivity|].
  intros key Hkey. apply lookup_delete_ne. apply not_eq_sym. assumption.
Qed.

Lemma deleteFile_once_witness :
  exists fs',
    FSAdapter.deleteFile FSAdapter.defaultAllowedPaths Samples.onlyB "src/b.ts" = Ok fs'
    /\ FSAdapter.deleteFile FSAdapter.defaultAllowedPaths fs' "src/b.ts"
       = Err "Failed to delete file: src/b.ts".
Proof.
  destruct (deleteFile_once FSAdapter.defaultAllowedPaths Samples.onlyB "src/b.ts" "old"
              eq_refl) as [_ [fs' [Hdelete [_ [_ [Hagain _]]]]]].
  exists fs'. split; assumption.
Defined.

(** ** The plan routes *)

(** X14. [POST /ai/plan] answers every generated plan, valid or not,
    and stores what it answers under the plan's id: the plan with its
    steps and changes, and its warnings followed by the errors of
    [validatePlan] when it reports the plan invalid (the internal error
    alone when the traversal exhausted the stack), and by the limit
    warning, if due. The stored plan is then found by the apply route,
    also when it is invalid. *)
Theorem postPlan_stores (allowedPaths : list string) (stackDepth : nat)
    (etag : string -> string) (maxFilesChanged : option Z)
    (aiResponse : PlannerService.AIResponse) (srv : Routes.Server) :
  let response := fst (Routes.postPlan allowedPaths stackDepth maxFilesChanged aiResponse srv) in
  let srv' := snd (Routes.postPlan allowedPaths stackDepth maxFilesChanged aiResponse srv) in
  let verdict :=
    PlannerService.validatePlan allowedPaths stackDepth
      (TransactionService.heap (Routes.transactions srv))
      (TransactionService.fs (Routes.transactions srv)) aiResponse in
  PlannerService.getPlan (Routes.activePlans srv') (PlannerService.responseId aiResponse)
  = Some response
  /\ PlannerService.steps response = PlannerService.steps aiResponse
  /\ PlannerService.changes response = PlannerService.changes aiResponse
  /\ (exists limit,
        PlannerService.warnings response
        = PlannerService.warnings aiResponse
          ++ (if fst verdict then [] else snd verdict) ++ limit
        /\ (limit = [] \/ limit = [Routes.limitWarning]))
  /\ (PlannerService.hasCircularDependencies stackDepth (PlannerService.steps aiResponse)
      = None ->
      fst verdict = false /\ snd verdict = [PlannerService.internalError])
  /\ forall txnId selectedFiles options,
       fst (Routes.applyPlan allowedPaths etag txnId
              (PlannerService.responseId aiResponse) selectedFiles options srv')
       <> Routes.PlanNotFound.
Proof.
  cbn zeta. unfold Routes.postPlan.
  destruct (PlannerService.validatePlan allowedPaths stackDepth _ _ aiResponse)
    as [isValid validationErrors] eqn:Hverdict.
  set (limit := if (_ <? _)%Z then [Routes.limitWarning] else []).
  cbn [fst snd].
  split; [apply lookup_insert_eq|]. split; [reflexivity|]. split; [reflexivity|]. split.
  { exists limit. split.
    - cbn. rewrite <- app_assoc. reflexivity.
    - subst limit. destruct (_ <? _)%Z; auto. }
  split.
  { intros Hthrows. unfold PlannerService.validatePlan in Hverdict.
    rewrite Hthrows in Hverdict. injection Hverdict as <- <-. auto. }
  intros txnId selectedFiles options. unfold Routes.applyPlan.
  cbn [Routes.activePlans]. unfold PlannerService.storePlan.
  cbn [PlannerService.responseId Routes.withWarnings]. rewrite lookup_insert_eq.
  destruct (TransactionService.executeTransaction _ _ _ _ _ _ _) as [[r|m] st'];
    discriminate.
Qed.

(** X16. When the call stack has room for more nested calls than the
    steps hold identifiers, [hasCircularDependencies] returns, with
    [true] exactly when some step depends on itself through one or more
    dependencies, each looked up by id among the steps. *)
Theorem hasCircularDependencies_decides (stackDepth : nat) (steps : list PlanStep) :
  size (PlannerService.nodes steps) < stackDepth ->
  (PlannerService.hasCircularDependencies stackDepth steps = Some true
   <-> PlanGraph.cyclic steps)
  /\ (PlannerService.hasCircularDependencies stackDepth steps = Some false
      <-> ~ PlanGraph.cyclic steps).
Proof.
  intros Hdepth.
  destruct (hasCircularDependencies_correct stackDepth steps Hdepth) as [b [-> Hb]].
  destruct b.
  - split; split.
    + intros _. apply Hb. reflexivity.
    + reflexivity.
    + discriminate.
    + intros Hacyclic. exfalso. apply Hacyclic. apply Hb. reflexivity.
  - split; split.
    + discriminate.
    + intros Hcyclic. apply Hb in Hcyclic. discriminate Hcyclic.
    + intros _ Hcyclic. apply Hb in Hcyclic. discriminate Hcyclic.
    + reflexivity.
Qed.

Lemma hasCircularDependencies_decides_witness :
  PlannerService.hasCircularDependencies Samples.callStack Samples.cycleABC = Some true.
Proof.
  apply (hasCircularDependencies_decides Samples.callStack Samples.cycleABC).
  - vm_compute. lia.
  - exact cycleABC_cyclic.
Defined.

(** ** Line numbers below one *)



(** ** Validating twice *)

(** X18. The validation phase returns one result per change and leaves
    every change object as it was, except that it may turn the apply
    method of a listed [diff] change into [replaceFile]; it announces
    nothing but listed [diff] changes. *)
Theorem validateChanges_only_downgrades (allowedPaths : list string)
    (fs : gmap string string) (changes : list loc) (h : loc -> FileChange) :
  let '(results, h', evs) := TransactionService.validateChanges allowedPaths fs changes h in
  length results = length changes
  /\ (forall l,
        h' l = h l
        \/ (In l changes /\ applyMethod (h l) = Diff
            /\ h' l = TransactionService.setApplyMethod ReplaceFile (h l)))
  /\ (forall e, In e evs ->
        exists l, In l changes /\ applyMethod (h l) = Diff
                  /\ e = TransactionService.DiffValidated (file (h l))).
Proof.
  pose proof (fun l => validateChanges_heap allowedPaths fs changes l h) as Hheap.
  assert (Hrest :
    length (fst (fst (TransactionService.validateChanges allowedPaths fs changes h)))
    = length changes
    /\ forall e,
         In e (snd (TransactionService.validateChanges allowedPaths fs changes h)) ->
         exists l, In l changes /\ applyMethod (h l) = Diff
                   /\ e = TransactionService.DiffValidated (file (h l))).
  { clear Hheap. revert h. induction changes as [|l0 changes IH]; intros h.
    - split; [reflexivity | intros e []].
    - cbn [TransactionService.validateChanges].
      assert (Hstep :
        forall e, In e (snd (TransactionService.validateChange allowedPaths fs l0 h)) ->
                  applyMethod (h l0) = Diff
                  /\ e = TransactionService.DiffValidated (file (h l0))).
      { unfold TransactionService.validateChange.
        destruct (negb _); [intros e []|].
        destruct (match op (h l0) with OpUpdate => _ | _ => _ end); [|intros e []].
        destruct (applyMethod (h l0)); try (intros e []).
        destruct (Js.truthy (diff (h l0))); [|intros e []].
        destruct (TransactionService.validateDiff _); [intros e []|].
        destruct (negb _); cbn [fst snd]; intros e [<-|[]]; auto. }
      pose proof (fun l => validateChanges_heap allowedPaths fs [l0] l h) as Hone.
      cbn [TransactionService.validateChanges] in Hone.
      destruct (TransactionService.validateChange allowedPaths fs l0 h) as [[r h1] evs1].
      cbn [fst snd] in *.
      specialize (IH h1).
      destruct (TransactionService.validateChanges allowedPaths fs changes h1)
        as [[rs h2] evs2].
      cbn [fst snd] in *. destruct IH as [IHlen IHevs].
      split; [cbn [length]; rewrite IHlen; reflexivity|].
      intros e He. apply in_app_or in He as [He|He].
      + destruct (Hstep e He) as [Hmethod ->]. exists l0.
        split; [left; reflexivity|]. split; [assumption | reflexivity].
      + destruct (IHevs e He) as [l [Hl [Hmethod ->]]]. exists l.
        split; [right; assumption|].
        destruct (Hone l) as [Hsame|[_ [_ Hset]]].
        * rewrite <- Hsame. split; [assumption | reflexivity].
        * rewrite Hset in Hmethod. discriminate Hmethod. }
  destruct (TransactionService.validateChanges allowedPaths fs changes h) as [[results h'] evs].
  cbn [fst snd] in *. destruct Hrest as [Hlen Hevs].
  split; [exact Hlen|]. split; [|exact Hevs].
  intros l. destruct (Hheap l) as [Hsame|[Hmethod [Hin Hset]]]; auto.
Qed.

(** ** Submitting a rejected change again *)




(** ** What the planner accepts, the engine applies *)



(** ** The progress a transaction announces *)



(** ** Reading a file, then saving it *)


